(** * bluescan, BR/EDR scanner: a shallow embedding of [br_scan.py]

    The scanner prints what it decodes and talks to a controller through the
    [bthci] package.  Both are effects; they are modelled as a trace of
    events written by a small writer-and-exception monad.  Python exceptions
    are values of [exn]; a function that raises returns [Raised e] together
    with the events it had already written. *)

From Stdlib Require Import ZArith Strings.String Strings.Ascii Strings.Byte.
From Stdlib Require Import List Lia BinaryString HexString DecimalString.
From stdpp Require Import base list strings gmap.

Open Scope Z_scope.

(** ** Python runtime: exceptions, output, the monad *)

Inductive exn : Type :=
| IndexError
| KeyError
| StructError
| UnicodeDecodeError
| UnboundLocalError
| SystemExit (code : Z).

(** [OutOfFuel] is produced only by the fuel-bounded [while] loop of the EIR
    walker; [eir_loop_fuel] shows that it is never reached. *)
Inductive outcome (A : Type) : Type :=
| Normal (a : A)
| Raised (e : exn)
| OutOfFuel.
Arguments Normal {A} a.
Arguments Raised {A} e.
Arguments OutOfFuel {A}.

Inductive level : Type := DEBUG | INFO | WARNING | ERROR.

(** Requests sent to the controller through [bthci.HCI]. *)
Inductive hci_call : Type :=
| CreateConnection (paddr : string) (page_scan_repetition_mode : Z)
| ReadRemoteVersionInformation (conn_handle : Z)
| ReadRemoteSupportedFeatures (conn_handle : Z)
| ReadRemoteExtendedFeatures (conn_handle : Z) (page : Z)
| Disconnect (conn_handle : Z).

Inductive event : Type :=
| Print (text : string)
| Log (lvl : level) (text : string)
| Hci (c : hci_call).

Definition M (A : Type) : Type := (list event * outcome A)%type.

Definition ret {A} (a : A) : M A := ([], Normal a).

Definition raise {A} (e : exn) : M A := ([], Raised e).

Definition bind {A B} (m : M A) (k : A -> M B) : M B :=
  match m with
  | (out, Normal a) => let (out', r) := k a in (out ++ out', r)
  | (out, Raised e) => (out, Raised e)
  | (out, OutOfFuel) => (out, OutOfFuel)
  end.

Notation "x <- m ;; k" := (bind m (fun x => k))
  (at level 100, m at next level, right associativity).
Notation "m ;;; k" := (bind m (fun _ => k))
  (at level 100, right associativity).

Definition emit (e : event) : M unit := ([e], Normal tt).

Definition nl : string := String (ascii_of_nat 10) EmptyString.

(** What [print(a, b, ...)] writes: the arguments joined by one space, then a
    newline. *)
Definition line (args : list string) : string :=
  String.concat " " args +:+ nl.

Definition print (args : list string) : M unit := emit (Print (line args)).

(** [print(a, b, ..., end=e)]. *)
Definition print_end (args : list string) (e : string) : M unit :=
  emit (Print (String.concat " " args +:+ e)).

Definition log (lvl : level) (text : string) : M unit := emit (Log lvl text).

(** A subscript on a dict: [d[k]] raises [KeyError] when the key is absent. *)
Definition subscript {A} (o : option A) : M A :=
  match o with
  | Some a => ret a
  | None => raise KeyError
  end.

(** A computation that ends: it returns or raises. *)
Definition ends {A} (m : M A) : Prop := m.2 <> OutOfFuel.

(** [returns P m]: whenever [m] returns normally, its value satisfies [P]. *)
Definition returns {A} (P : A -> Prop) (m : M A) : Prop :=
  forall a, m.2 = Normal a -> P a.

(** What reaches standard output: the [Print] events of a trace. *)
Fixpoint displayed (t : list event) : list string :=
  match t with
  | [] => []
  | Print s :: t' => s :: displayed t'
  | _ :: t' => displayed t'
  end.

(** The controller requests of a trace. *)
Fixpoint requests (t : list event) : list hci_call :=
  match t with
  | [] => []
  | Hci c :: t' => c :: requests t'
  | _ :: t' => requests t'
  end.

(** ** Python runtime: bytes and integers *)

Definition byte_val (b : byte) : Z := Z.of_N (Byte.to_N b).

(** [b[i]] on a bytes object, for [i >= 0]: [IndexError] out of range. *)
Definition index (b : list byte) (i : nat) : M Z :=
  match b !! i with
  | Some x => ret (byte_val x)
  | None => raise IndexError
  end.

(** [b[lo:hi]] for [0 <= lo <= hi]: slices never raise, they truncate. *)
Definition slice (b : list byte) (lo hi : nat) : list byte :=
  take (hi - lo) (drop lo b).

(** [int.from_bytes(b, byteorder='little')], the default [signed=False]. *)
Fixpoint int_from_bytes_little (b : list byte) : Z :=
  match b with
  | [] => 0
  | x :: b' => byte_val x + 256 * int_from_bytes_little b'
  end.

(** Format character [b] of [struct]: one byte read as a signed char. *)
Definition signed_char (b : list byte) : Z :=
  let u := int_from_bytes_little b in
  if u <? 128 then u else u - 256.

(** ** Python runtime: number formatting *)

Definition upper_ascii (c : ascii) : ascii :=
  let n := nat_of_ascii c in
  if (Nat.leb 97 n && Nat.leb n 122)%bool then ascii_of_nat (n - 32) else c.

Fixpoint upper (s : string) : string :=
  match s with
  | EmptyString => EmptyString
  | String c s' => String (upper_ascii c) (upper s')
  end.

Fixpoint zeros (n : nat) : string :=
  match n with
  | O => EmptyString
  | S n' => String "0" (zeros n')
  end.

Definition zfill (width : nat) (s : string) : string :=
  zeros (width - String.length s) +:+ s.

Definition hex_digits (z : Z) : string :=
  match z with
  | Zpos p => HexString.Raw.of_pos p ""
  | _ => "0"
  end.

(** ['%0<w>x' % z] and ['%0<w>X' % z]; the sign counts in the width. *)
Definition fmt_x (width : nat) (z : Z) : string :=
  match z with
  | Zneg p => "-" +:+ zfill (width - 1) (hex_digits (Zpos p))
  | _ => zfill width (hex_digits z)
  end.

Definition fmt_X (width : nat) (z : Z) : string := upper (fmt_x width z).

(** ['%d' % z] and [str(z)]. *)
Definition fmt_d (z : Z) : string := NilZero.string_of_int (Z.to_int z).

(** [bin(z)]. *)
Definition bin (z : Z) : string := BinaryString.of_Z z.

(** [s * n] on a string. *)
Fixpoint str_mul (s : string) (n : nat) : string :=
  match n with
  | O => EmptyString
  | S n' => s +:+ str_mul s n'
  end.

(** ** What [br_scan.py] imports

    The tables, constants and helpers that [br_scan.py] takes from modules
    that are not part of the embedded sources ([.ui], [.common], [.gap_data],
    [.lmp], [.ll], the package's [service_cls_profile_ids], and the external
    packages [bthci] and [xpycommon]) are the fields of one record.  The
    embedding is parametric in it.  A dict is a partial function; a printer
    is a computation that may write and may raise. *)

Record Imports : Type := {
  INDENT : string;
  blue : string -> string;
  red : string -> string;
  green : string -> string;
  (* [str(b)] of a bytes object *)
  str_bytes : list byte -> string;
  (* [b.decode()]: [None] stands for [UnicodeDecodeError] *)
  decode : list byte -> option string;
  bdaddr_to_company_name : string -> string;
  (* bthci *)
  HciEventCodes : Z -> option string;
  ControllerErrorCodes : Z -> option string;
  SUCCESS : Z;
  HCI_Inquiry_Result : Z;
  HCI_Inquiry_Result_with_RSSI : Z;
  HCI_Extended_Inquiry_Result : Z;
  (* .gap_data *)
  gap_type_names : Z -> option string;
  COMPLETE_LIST_OF_16_BIT_SERVICE_CLASS_UUIDS : Z;
  COMPLETE_LIST_OF_32_BIT_SERVICE_CLASS_UUIDS : Z;
  COMPLETE_LIST_OF_128_BIT_SERVICE_CLASS_UUIDS : Z;
  SHORTENED_LOCAL_NAME : Z;
  COMPLETE_LOCAL_NAME : Z;
  TX_POWER_LEVEL : Z;
  (* [service_cls_profile_ids[uuid]['Name']] *)
  service_cls_profile_ids : Z -> option string;
  (* .lmp and .ll *)
  lmp_vers : Z -> option string;
  ll_vers : Z -> option string;
  company_identfiers : Z -> option string;
  pp_lmp_features : list byte -> M unit;
  pp_ext_lmp_features : list byte -> Z -> M unit
}.

(** ** Class of Device *)

Definition major_dev_clses : gmap Z string :=
  list_to_map
    [ (0, "Miscellaneous"); (1, "Computer"); (2, "Phone");
      (3, "Lan/Network Access Point"); (4, "Audio/Video");
      (5, "Peripheral (HID)"); (6, "Imaging"); (7, "Wearable");
      (8, "Toy"); (9, "Health"); (31, "Uncategorized") ]%string.

(** The bit accessors that [pp_cod] binds to lambdas. *)
Definition bit_at (k : Z) (b : Z) : Z := Z.land (Z.shiftr b k) 1.

Definition information : Z -> Z := bit_at 23.
Definition telephony : Z -> Z := bit_at 22.
Definition audio : Z -> Z := bit_at 21.
Definition object_transfer : Z -> Z := bit_at 20.
Definition capturing : Z -> Z := bit_at 19.
Definition rendering : Z -> Z := bit_at 18.
Definition networking : Z -> Z := bit_at 17.
Definition positioning : Z -> Z := bit_at 16.
Definition limited_discoverable_mode : Z -> Z := bit_at 13.

(** [if flag(cod): print(...)]: a Python integer is true when it is not 0. *)
Definition when (c : Z) (m : M unit) : M unit :=
  if c =? 0 then ret tt else m.

Section Scanner.

Context (I : Imports).

Definition pp_minor_dev_cls (val : Z) (major_dev_cls : Z) : M unit := ret tt.

Definition pp_cod (cod : Z) : M unit :=
  log DEBUG "Entered br_scan.py, pp_cod()" ;;;
  if ((cod >? 16777215) || negb (Z.land cod 3 =? 0))%bool then
    log WARNING "CoD's Format Type is not format #1"
  else
    print [INDENT I +:+ "Service Class: " +:+ bin (Z.shiftr cod 13)] ;;;
    when (information cod) (print [str_mul (INDENT I) 2 +:+ "Information"]) ;;;
    when (telephony cod) (print [str_mul (INDENT I) 2 +:+ "Telephony"]) ;;;
    when (audio cod) (print [str_mul (INDENT I) 2 +:+ "Audio"]) ;;;
    when (object_transfer cod)
      (print [str_mul (INDENT I) 2 +:+ "Object Transfer"]) ;;;
    when (capturing cod) (print [str_mul (INDENT I) 2 +:+ "Capturing"]) ;;;
    when (rendering cod) (print [str_mul (INDENT I) 2 +:+ "Rendering"]) ;;;
    when (networking cod) (print [str_mul (INDENT I) 2 +:+ "Networking"]) ;;;
    when (positioning cod) (print [str_mul (INDENT I) 2 +:+ "Positioning"]) ;;;
    when (limited_discoverable_mode cod)
      (print [str_mul (INDENT I) 2 +:+ "Limited Discoverable Mode"]) ;;;
    let major_dev_cls := Z.land (Z.shiftr cod 8) 31 in
    name <- subscript (major_dev_clses !! major_dev_cls) ;;
    print [INDENT I +:+ "Major Device Class: " +:+ bin major_dev_cls +:+ ",";
           blue I name] ;;;
    pp_minor_dev_cls (Z.land (Z.shiftr cod 8) 0) major_dev_cls.

(** ** Extended Inquiry Response *)

(** [range(0, stop, step)] for [step > 0]. *)
Definition range0 (stop step : nat) : list nat :=
  map (fun k => (k * step)%nat) (seq 0 ((stop + step - 1) / step)).

Fixpoint for_each {A} (l : list A) (body : A -> M unit) : M unit :=
  match l with
  | [] => ret tt
  | x :: l' => body x ;;; for_each l' body
  end.

(** [s[lo:hi]] on a string. *)
Definition substr (lo hi : nat) (s : string) : string :=
  String.substring lo (hi - lo) s.

Definition len (b : list byte) : Z := Z.of_nat (length b).

(** The body of the [while] loop from the first [if] on: what is printed for
    one element.  A [continue] ends the body, so it is a plain return here. *)
Definition pp_eir_element (length : Z) (data : list byte) (data_type : Z)
  : M unit :=
  if data_type =? COMPLETE_LIST_OF_16_BIT_SERVICE_CLASS_UUIDS I then
    name <- subscript (gap_type_names I data_type) ;;
    print [name] ;;;
    if length - 1 >=? 2 then
      let eir_data := drop 1 data in
      if negb (len eir_data mod 2 =? 0) then
        print [str_mul (INDENT I) 2
               +:+ blue I ("Invalid EIR data length: " +:+ fmt_d (len eir_data))]
      else
        for_each (range0 (List.length eir_data) 2) (fun i =>
          let uuid := int_from_bytes_little (slice eir_data i (i + 2)) in
          print_end [str_mul (INDENT I) 2 +:+ "0x" +:+ fmt_x 4 uuid +:+ " "] "" ;;;
          match service_cls_profile_ids I uuid with
          | Some n => print [blue I n]
          | None => print [red I "unknown"]
          end)
    else
      print [str_mul (INDENT I) 2 +:+ red I "None"]
  else if data_type =? COMPLETE_LIST_OF_32_BIT_SERVICE_CLASS_UUIDS I then
    name <- subscript (gap_type_names I data_type) ;;
    print [name] ;;;
    if length - 1 >=? 4 then
      let eir_data := drop 1 data in
      if negb (len eir_data mod 4 =? 0) then
        log INFO (str_mul (INDENT I) 2 +:+ "Invalid EIR data length: "
                  +:+ fmt_d (len eir_data) +:+ " " +:+ str_bytes I eir_data)
      else
        for_each (range0 (List.length eir_data) 4) (fun i =>
          let uuid := int_from_bytes_little (slice eir_data i (i + 4)) in
          print [str_mul (INDENT I) 2 +:+ "0x" +:+ fmt_x 8 uuid +:+ " "])
    else
      print [str_mul (INDENT I) 2 +:+ red I "None"]
  else if data_type =? COMPLETE_LIST_OF_128_BIT_SERVICE_CLASS_UUIDS I then
    name <- subscript (gap_type_names I data_type) ;;
    print [name] ;;;
    if length - 1 >=? 16 then
      let eir_data := drop 1 data in
      if negb (len eir_data mod 16 =? 0) then
        log INFO (str_mul (INDENT I) 2 +:+ "Invalid EIR data length: "
                  +:+ fmt_d (len eir_data) +:+ " " +:+ str_bytes I eir_data)
      else
        for_each (range0 (List.length eir_data) 16) (fun i =>
          let uuid := int_from_bytes_little (slice eir_data i (i + 16)) in
          let uuid_str := fmt_X 32 uuid in
          print_end [str_mul (INDENT I) 2] "" ;;;
          print [blue I (String.concat "-"
                   [substr 0 8 uuid_str; substr 8 12 uuid_str;
                    substr 12 16 uuid_str; substr 16 20 uuid_str;
                    substr 20 32 uuid_str])])
    else
      print [str_mul (INDENT I) 2 +:+ red I "None"]
  else if ((data_type =? SHORTENED_LOCAL_NAME I)
           || (data_type =? COMPLETE_LOCAL_NAME I))%bool then
    name <- subscript (gap_type_names I data_type) ;;
    match decode I (drop 1 data) with
    | Some text => print [name +:+ ":"; blue I text]
    | None => raise UnicodeDecodeError
    end
  else if data_type =? TX_POWER_LEVEL I then
    name <- subscript (gap_type_names I data_type) ;;
    print [name +:+ ":";
           blue I (fmt_d (int_from_bytes_little (drop 1 data)) +:+ " dBm")]
  else
    match gap_type_names I data_type with
    | Some name => print [name]
    | None => print [red I ("Unknown, 0x" +:+ fmt_x 2 data_type)]
    end ;;;
    print [str_mul (INDENT I) 2 +:+ str_bytes I (drop 1 data)].

(** The [while] loop.  Each turn drops [1 + length >= 2] bytes from the local
    [ext_inq_rsp], so [S (length ext_inq_rsp)] turns are enough. *)
Fixpoint eir_loop (fuel : nat) (ext_inq_rsp : list byte) : M unit :=
  match fuel with
  | O => ([], OutOfFuel)
  | S fuel' =>
    b0 <- index ext_inq_rsp 0 ;;
    if b0 =? 0 then ret tt
    else
      let length := b0 in
      let data := slice ext_inq_rsp 1 (1 + Z.to_nat length) in
      data_type <- index data 0 ;;
      let ext_inq_rsp' := drop (1 + Z.to_nat length) ext_inq_rsp in
      print_end [INDENT I] "" ;;;
      pp_eir_element length data data_type ;;;
      eir_loop fuel' ext_inq_rsp'
  end.

Definition pp_ext_inquiry_rsp (ext_inq_rsp : list byte) : M unit :=
  print_end ["Extended inquiry response: "] "" ;;;
  b0 <- index ext_inq_rsp 0 ;;
  if b0 =? 0 then print [red I "None"]
  else
    print [] ;;;
    eir_loop (S (List.length ext_inq_rsp)) ext_inq_rsp.

(** ** Inquiry results *)

Record BRScanner : Type := {
  iface : string;
  devid : Z;
  scanned_dev : list string;
  remote_name_req_flag : bool
}.

(** [self.scanned_dev.append(bd_addr)]. *)
Definition scanned_dev_append (self : BRScanner) (bd_addr : string)
  : BRScanner :=
  {| iface := iface self; devid := devid self;
     scanned_dev := scanned_dev self ++ [bd_addr];
     remote_name_req_flag := remote_name_req_flag self |}.

(** [struct.unpack] raises [struct.error] unless the buffer has exactly the
    size of the format; [<] means little-endian without padding. *)
Definition unpack_6sBH3sH (b : list byte)
  : M (list byte * Z * Z * list byte * Z) :=
  if Nat.eqb (List.length b) 14 then
    ret (slice b 0 6, int_from_bytes_little (slice b 6 7),
         int_from_bytes_little (slice b 7 9), slice b 9 12,
         int_from_bytes_little (slice b 12 14))
  else raise StructError.

Definition unpack_6sBB3sHb (b : list byte)
  : M (list byte * Z * Z * list byte * Z * Z) :=
  if Nat.eqb (List.length b) 14 then
    ret (slice b 0 6, int_from_bytes_little (slice b 6 7),
         int_from_bytes_little (slice b 7 8), slice b 8 11,
         int_from_bytes_little (slice b 11 13), signed_char (slice b 13 14))
  else raise StructError.

Definition unpack_6sBB3sHb240s (b : list byte)
  : M (list byte * Z * Z * list byte * Z * Z * list byte) :=
  if Nat.eqb (List.length b) 254 then
    ret (slice b 0 6, int_from_bytes_little (slice b 6 7),
         int_from_bytes_little (slice b 7 8), slice b 8 11,
         int_from_bytes_little (slice b 11 13), signed_char (slice b 13 14),
         slice b 14 254)
  else raise StructError.

(** [':'.join(['%02X'%b for b in bd_addr[::-1]])]. *)
Definition format_bd_addr (bd_addr : list byte) : string :=
  String.concat ":" (map (fun b => fmt_X 2 (byte_val b)) (rev bd_addr)).

Definition pp_page_scan_repetition_mode (val : Z) : M unit :=
  print_end [fmt_d val] " " ;;;
  if val =? 0 then print ["(R0)"]
  else if val =? 1 then print ["(R1)"]
  else if val =? 2 then print ["(R2)"]
  else print [red I "RFU"].

(** The three methods return the scanner as they leave it.  Their only
    assignment to [self] is the final [append], so a method that raises
    leaves the scanner as it found it. *)
Definition pp_inquiry_result (self : BRScanner) (params : list byte)
  : M BRScanner :=
  num_rsp <- index params 0 ;;
  if negb (num_rsp =? 1) then
    log INFO ("Num_Responses in HCI_Inquiry_Result is "
              +:+ fmt_d num_rsp +:+ ".") ;;;
    log DEBUG ("HCI_Inquiry_Result: " +:+ str_bytes I params) ;;;
    ret self
  else
    bind (unpack_6sBH3sH (drop 1 params))
      (fun '(bd_addr, page_scan_repetition_mode, reserved, cod, clk_offset) =>
    let bd_addr := format_bd_addr bd_addr in
    if bool_decide (bd_addr ∈ scanned_dev self) then ret self
    else
      print ["Addr:"; blue I bd_addr;
             "(" +:+ bdaddr_to_company_name I bd_addr +:+ ")"] ;;;
      print_end ["Page scan repetition mode: "] "" ;;;
      pp_page_scan_repetition_mode page_scan_repetition_mode ;;;
      print ["Reserved: 0x" +:+ fmt_x 4 reserved] ;;;
      let cod := int_from_bytes_little cod in
      print ["CoD: 0x" +:+ fmt_X 6 cod] ;;;
      pp_cod cod ;;;
      print ["Clock offset: 0x" +:+ fmt_X 4 clk_offset] ;;;
      print [nl] ;;;
      ret (scanned_dev_append self bd_addr)).

Definition pp_inquiry_result_with_rssi (self : BRScanner) (params : list byte)
  : M BRScanner :=
  num_rsp <- index params 0 ;;
  if negb (num_rsp =? 1) then
    log INFO ("Num_Responses in HCI_Inquiry_Result_with_RSSI is "
              +:+ fmt_d num_rsp +:+ ".") ;;;
    log DEBUG ("HCI_Inquiry_Result_with_RSSI: " +:+ str_bytes I params) ;;;
    ret self
  else
    bind (unpack_6sBB3sHb (drop 1 params))
      (fun '(bd_addr, page_scan_repetition_mode, reserved, cod, clk_offset,
             rssi) =>
    let bd_addr := format_bd_addr bd_addr in
    if bool_decide (bd_addr ∈ scanned_dev self) then ret self
    else
      print ["Addr:"; blue I bd_addr;
             "(" +:+ bdaddr_to_company_name I bd_addr +:+ ")"] ;;;
      print_end ["Page scan repetition mode: "] "" ;;;
      pp_page_scan_repetition_mode page_scan_repetition_mode ;;;
      print ["Reserved: 0x" +:+ fmt_x 2 reserved] ;;;
      let cod := int_from_bytes_little cod in
      print ["CoD: 0x" +:+ fmt_X 6 cod] ;;;
      pp_cod cod ;;;
      print ["Clock offset: 0x" +:+ fmt_X 4 clk_offset] ;;;
      print ["RSSI: " +:+ fmt_d rssi] ;;;
      print [nl] ;;;
      ret (scanned_dev_append self bd_addr)).

Definition pp_extended_inquiry_result (self : BRScanner) (params : list byte)
  : M BRScanner :=
  num_rsp <- index params 0 ;;
  if negb (num_rsp =? 1) then
    log INFO ("Num_Responses in HCI_Extended_Inquiry_Result is "
              +:+ fmt_d num_rsp +:+ ".") ;;;
    log DEBUG ("HCI_Extended_Inquiry_Result: " +:+ str_bytes I params) ;;;
    ret self
  else
    bind (unpack_6sBB3sHb240s (drop 1 params))
      (fun '(bd_addr, page_scan_repetition_mode, reserved, cod, clk_offset,
             rssi, ext_inq_rsp) =>
    let bd_addr := format_bd_addr bd_addr in
    if bool_decide (bd_addr ∈ scanned_dev self) then ret self
    else
      print ["Addr:"; blue I bd_addr;
             "(" +:+ bdaddr_to_company_name I bd_addr +:+ ")"] ;;;
      print_end ["Page scan repetition mode: "] "" ;;;
      pp_page_scan_repetition_mode page_scan_repetition_mode ;;;
      print ["Reserved: 0x" +:+ fmt_x 2 reserved] ;;;
      let cod := int_from_bytes_little cod in
      print ["CoD: 0x" +:+ fmt_X 6 cod] ;;;
      pp_cod cod ;;;
      print ["Clock offset: 0x" +:+ fmt_X 4 clk_offset] ;;;
      print ["RSSI: " +:+ fmt_d rssi] ;;;
      pp_ext_inquiry_rsp ext_inq_rsp ;;;
      print [nl] ;;;
      ret (scanned_dev_append self bd_addr)).

(** The closure [inquiry_result_handler] of [BRScanner.inquiry]. *)
Definition inquiry_result_handler (self : BRScanner) (result : list byte)
  : M BRScanner :=
  event_code <- index result 0 ;;
  name <- subscript (HciEventCodes I event_code) ;;
  log DEBUG ("Entered inquiry(), inquiry_result_handler()" +:+ nl +:+ name) ;;;
  if event_code =? HCI_Inquiry_Result I then
    pp_inquiry_result self (drop 2 result)
  else if event_code =? HCI_Inquiry_Result_with_RSSI I then
    pp_inquiry_result_with_rssi self (drop 2 result)
  else if event_code =? HCI_Extended_Inquiry_Result I then
    pp_extended_inquiry_result self (drop 2 result)
  else
    log WARNING ("Unknow inquiry result: " +:+ str_bytes I result) ;;;
    ret self.

(** Modelled from the spec: [HCI.inquiry] of the [bthci] package, which is
    not among the sources.  The spec has the transport deliver the event
    buffers one at a time, in arrival order, to the registered handler, and
    has a failure in the decoding of one event end that event only: the
    event is dropped and the session goes on.  So when an exception leaves
    the handler, the scanner stays as the last completed call left it and
    the next event is delivered.  The trace holds what [br_scan.py] writes;
    what the transport itself writes about a dropped event is not part of
    it. *)
Fixpoint deliver (self : BRScanner) (results : list (list byte))
  : list event * outcome unit * BRScanner :=
  match results with
  | [] => ([], Normal tt, self)
  | result :: results' =>
    match inquiry_result_handler self result with
    | (out, Normal self') =>
      let '(out', r, self'') := deliver self' results' in
      (out ++ out', r, self'')
    | (out, Raised e) =>
      let '(out', r, self'') := deliver self results' in
      (out ++ out', r, self'')
    | (out, OutOfFuel) => (out, OutOfFuel, self)
    end
  end.

(** The scanner after [self.scanned_dev = []] and
    [self.remote_name_req_flag = True]. *)
Definition reset_scan (self : BRScanner) : BRScanner :=
  {| iface := iface self; devid := devid self;
     scanned_dev := []; remote_name_req_flag := true |}.

(** [BRScanner.inquiry] from these two assignments to the return of
    [hci.inquiry]; the name requests that follow are [request_names]. *)
Definition inquiry_events (self : BRScanner) (results : list (list byte))
  : list event * outcome unit * BRScanner :=
  deliver (reset_scan self) results.

(** ** LMP feature pages *)

(** The completion events that [bthci.HCI] returns for the four requests of
    [scan_lmp_feature]. *)
Record ConnectionComplete : Type := {
  cc_status : Z;
  conn_handle : Z
}.

Record ReadRemoteVersionInformationComplete : Type := {
  rv_status : Z;
  version : Z;
  company_id : Z;
  subversion : Z
}.

Record ReadRemoteSupportedFeaturesComplete : Type := {
  rf_status : Z;
  lmp_features : list byte
}.

Record ReadRemoteExtendedFeaturesComplete : Type := {
  re_status : Z;
  max_page_num : Z;
  ext_lmp_features : list byte
}.

(** The controller and the remote device behind it: what each request is
    answered with. *)
Record Controller : Type := {
  create_connection : string -> Z -> ConnectionComplete;
  read_remote_version_information : Z -> ReadRemoteVersionInformationComplete;
  read_remote_supported_features : Z -> ReadRemoteSupportedFeaturesComplete;
  read_remote_extended_features : Z -> Z -> ReadRemoteExtendedFeaturesComplete
}.

Context (hci : Controller).

(** [range(1, stop)]. *)
Definition range1 (stop : Z) : list Z :=
  map (fun k => 1 + Z.of_nat k) (seq 0 (Z.to_nat (stop - 1))).

Definition scan_lmp_feature (paddr : string) : M unit :=
  emit (Hci (CreateConnection paddr 2)) ;;;
  let conn_complete := create_connection hci paddr 2 in
  if negb (cc_status conn_complete =? SUCCESS I) then
    name <- subscript (ControllerErrorCodes I (cc_status conn_complete)) ;;
    log ERROR ("Failed to connect " +:+ paddr +:+ " BD/EDR address" +:+ nl
               +:+ "    connection complete status: 0x"
               +:+ fmt_x 2 (cc_status conn_complete) +:+ " - " +:+ name) ;;;
    raise (SystemExit 1)
  else
  emit (Hci (ReadRemoteVersionInformation (conn_handle conn_complete))) ;;;
  let read_remote_version_info_complete :=
    read_remote_version_information hci (conn_handle conn_complete) in
  if negb (rv_status read_remote_version_info_complete =? SUCCESS I) then
    log ERROR "Failed to read remote version" ;;;
    raise (SystemExit 1)
  else
  print [blue I "Version"] ;;;
  print ["    Version:"] ;;;
  lmp <- subscript (lmp_vers I (version read_remote_version_info_complete)) ;;
  print [str_mul " " 8 +:+ lmp; "(LMP)"] ;;;
  ll <- subscript (ll_vers I (version read_remote_version_info_complete)) ;;
  print [str_mul " " 8 +:+ ll; "(LL)"] ;;;
  company <- subscript
    (company_identfiers I (company_id read_remote_version_info_complete)) ;;
  print ["    Manufacturer name:"; green I company] ;;;
  print ["    Subversion:";
         fmt_d (subversion read_remote_version_info_complete); nl] ;;;
  emit (Hci (ReadRemoteSupportedFeatures (conn_handle conn_complete))) ;;;
  let read_remote_supported_features_complete :=
    read_remote_supported_features hci (conn_handle conn_complete) in
  if negb (rf_status read_remote_supported_features_complete =? SUCCESS I) then
    (* the arguments of [logger.error] read the local
       [read_remote_ext_features_complete], which is assigned further down *)
    raise UnboundLocalError
  else
  print [blue I "LMP features"] ;;;
  pp_lmp_features I (lmp_features read_remote_supported_features_complete) ;;;
  print [] ;;;
  b7 <- index (lmp_features read_remote_supported_features_complete) 7 ;;
  (* [not True if c else False] is [(not True) if c else False] *)
  if (if negb (Z.land (Z.shiftr b7 7) 1 =? 0) then negb true else false) then
    raise (SystemExit 1)
  else
  print [blue I "Extended LMP features"] ;;;
  emit (Hci (ReadRemoteExtendedFeatures (conn_handle conn_complete) 0)) ;;;
  let read_remote_ext_features_complete :=
    read_remote_extended_features hci (conn_handle conn_complete) 0 in
  if negb (re_status read_remote_ext_features_complete =? SUCCESS I) then
    name <- subscript
      (ControllerErrorCodes I (re_status read_remote_ext_features_complete)) ;;
    log ERROR ("Failed to read remote extented features" +:+ nl
               +:+ "    read remote extented features complete status: 0x"
               +:+ fmt_x 2 (re_status read_remote_ext_features_complete)
               +:+ " - " +:+ name) ;;;
    emit (Hci (Disconnect (conn_handle conn_complete))) ;;;
    raise (SystemExit 1)
  else
  let max_page_num := max_page_num read_remote_ext_features_complete in
  for_each (range1 (max_page_num + 1)) (fun i =>
    emit (Hci (ReadRemoteExtendedFeatures (conn_handle conn_complete) i)) ;;;
    let read_remote_ext_features_complete_i :=
      read_remote_extended_features hci (conn_handle conn_complete) i in
    if negb (re_status read_remote_ext_features_complete_i =? SUCCESS I) then
      log ERROR ("Failed to read remote extented features, page "
                 +:+ fmt_d i)
    else
      pp_ext_lmp_features I
        (ext_lmp_features read_remote_ext_features_complete_i) i) ;;;
  emit (Hci (Disconnect (conn_handle conn_complete))).

End Scanner.

#[global] Instance exn_eq_dec : EqDecision exn.
Proof. solve_decision. Defined.
#[global] Instance level_eq_dec : EqDecision level.
Proof. solve_decision. Defined.
#[global] Instance hci_call_eq_dec : EqDecision hci_call.
Proof. solve_decision. Defined.
#[global] Instance event_eq_dec : EqDecision event.
Proof. solve_decision. Defined.

(** ** One instance of the imports

    The embedding is evaluated on concrete inputs with the values below: the
    Bluetooth assigned numbers for the constants, a few entries of each
    table, four spaces for [INDENT], and colour functions that leave the
    text as it is. *)

Definition in_range (x : byte) (lo hi : Z) : bool :=
  ((lo <=? byte_val x) && (byte_val x <=? hi))%bool.

(** Strict UTF-8, as [bytes.decode()] checks it. *)
Fixpoint utf8_valid (b : list byte) : bool :=
  match b with
  | [] => true
  | x :: r =>
    let v := byte_val x in
    if v <=? 127 then utf8_valid r
    else if ((194 <=? v) && (v <=? 223))%bool then
      match r with
      | y :: r' => (in_range y 128 191 && utf8_valid r')%bool
      | _ => false
      end
    else if ((224 <=? v) && (v <=? 239))%bool then
      match r with
      | y :: z :: r' =>
        (in_range y (if v =? 224 then 160 else 128)
                    (if v =? 237 then 159 else 191)
         && in_range z 128 191 && utf8_valid r')%bool
      | _ => false
      end
    else if ((240 <=? v) && (v <=? 244))%bool then
      match r with
      | y :: z :: w :: r' =>
        (in_range y (if v =? 240 then 144 else 128)
                    (if v =? 244 then 143 else 191)
         && in_range z 128 191 && in_range w 128 191 && utf8_valid r')%bool
      | _ => false
      end
    else false
  end.

(** The decoded text is kept in its UTF-8 encoding. *)
Definition utf8_decode (b : list byte) : option string :=
  if utf8_valid b then Some (string_of_list_byte b) else None.

(** A rendering of a bytes object: every byte as an escape. *)
Definition escaped_bytes (b : list byte) : string :=
  "b'" +:+ String.concat "" (map (fun x => "\x" +:+ fmt_x 2 (byte_val x)) b)
  +:+ "'".

Definition table (l : list (Z * string)) (k : Z) : option string :=
  (list_to_map l : gmap Z string) !! k.

Definition bt_imports : Imports := {|
  INDENT := "    ";
  blue := fun s => s;
  red := fun s => s;
  green := fun s => s;
  str_bytes := escaped_bytes;
  decode := utf8_decode;
  bdaddr_to_company_name := fun _ => "Unknown";
  HciEventCodes := table
    [ (2, "HCI_Inquiry_Result"); (34, "HCI_Inquiry_Result_with_RSSI");
      (47, "HCI_Extended_Inquiry_Result"); (1, "HCI_Inquiry_Complete") ]%string;
  ControllerErrorCodes := table
    [ (0, "SUCCESS"); (4, "PAGE_TIMEOUT"); (8, "CONNECTION_TIMEOUT") ]%string;
  SUCCESS := 0;
  HCI_Inquiry_Result := 2;
  HCI_Inquiry_Result_with_RSSI := 34;
  HCI_Extended_Inquiry_Result := 47;
  gap_type_names := table
    [ (1, "Flags");
      (3, "Complete List of 16-bit Service Class UUIDs");
      (5, "Complete List of 32-bit Service Class UUIDs");
      (7, "Complete List of 128-bit Service Class UUIDs");
      (8, "Shortened Local Name"); (9, "Complete Local Name");
      (10, "Tx Power Level") ]%string;
  COMPLETE_LIST_OF_16_BIT_SERVICE_CLASS_UUIDS := 3;
  COMPLETE_LIST_OF_32_BIT_SERVICE_CLASS_UUIDS := 5;
  COMPLETE_LIST_OF_128_BIT_SERVICE_CLASS_UUIDS := 7;
  SHORTENED_LOCAL_NAME := 8;
  COMPLETE_LOCAL_NAME := 9;
  TX_POWER_LEVEL := 10;
  service_cls_profile_ids := table
    [ (4363, "Audio Sink"); (4366, "A/V Remote Control") ]%string;
  lmp_vers := table [ (8, "Bluetooth Core Specification 4.2") ]%string;
  ll_vers := table [ (8, "Bluetooth Core Specification 4.2") ]%string;
  company_identfiers := table [ (15, "Broadcom Corporation") ]%string;
  pp_lmp_features := fun b => print [escaped_bytes b];
  pp_ext_lmp_features := fun b i => print [fmt_d i; escaped_bytes b]
|}.

(** A remote device whose requests all succeed and whose base features have
    bit 7 of byte 7 clear: it announces no extended features. *)
Definition no_ext_features : list byte :=
  [xff; xff; x8f; xfe; xdb; xff; x5b; x07]%byte.

Definition hci_no_ext : Controller := {|
  create_connection := fun _ _ => {| cc_status := 0; conn_handle := 11 |};
  read_remote_version_information := fun _ =>
    {| rv_status := 0; version := 8; company_id := 15; subversion := 8718 |};
  read_remote_supported_features := fun _ =>
    {| rf_status := 0; lmp_features := no_ext_features |};
  read_remote_extended_features := fun _ _ =>
    {| re_status := 0; max_page_num := 1;
       ext_lmp_features := repeat x00%byte 8 |}
|}.

(** The same device, but the version read ends with status 0x08. *)
Definition hci_version_fails : Controller := {|
  create_connection := create_connection hci_no_ext;
  read_remote_version_information := fun _ =>
    {| rv_status := 8; version := 0; company_id := 0; subversion := 0 |};
  read_remote_supported_features := read_remote_supported_features hci_no_ext;
  read_remote_extended_features := read_remote_extended_features hci_no_ext
|}.

(** The same device, but the read of the base features ends with 0x08. *)
Definition hci_features_fail : Controller := {|
  create_connection := create_connection hci_no_ext;
  read_remote_version_information := read_remote_version_information hci_no_ext;
  read_remote_supported_features := fun _ =>
    {| rf_status := 8; lmp_features := [] |};
  read_remote_extended_features := read_remote_extended_features hci_no_ext
|}.

(** An EIR block of 240 octets that starts with the given bytes. *)
Definition eir_block (head : list byte) : list byte :=
  head ++ repeat x00%byte (240 - List.length head).

(** ** The shape of an EIR block *)

(** Following the length bytes from the head of [b] leads to a length byte
    of zero inside [b]. *)
Fixpoint eir_chain_ends (fuel : nat) (b : list byte) : bool :=
  match fuel with
  | O => false
  | S fuel' =>
    match b with
    | [] => false
    | x :: _ =>
      if byte_val x =? 0 then true
      else eir_chain_ends fuel' (drop (1 + Z.to_nat (byte_val x)) b)
    end
  end.

(** The element at the head of [b] declares a length that reaches the end of
    [b] or reads past it. *)
Definition overruns (b : list byte) : Prop :=
  exists x tl, b = x :: tl /\ byte_val x <> 0 /\
    (List.length b <= 1 + Z.to_nat (byte_val x))%nat.

(** Printing the element at the head of [b] raises [e]. *)
Definition element_raises (I : Imports) (b : list byte) (e : exn) : Prop :=
  exists x tl data_type o, b = x :: tl /\
    index (slice b 1 (1 + Z.to_nat (byte_val x))) 0 = ret data_type /\
    pp_eir_element I (byte_val x) (slice b 1 (1 + Z.to_nat (byte_val x)))
      data_type = (o, Raised e).

(** [walked I b out rest]: some turns of the [while] loop, each of which
    returned normally, lead from [b] to [rest] and write [out]. *)
Inductive walked (I : Imports) : list byte -> list event -> list byte -> Prop :=
| walked_here b : walked I b [] b
| walked_turn x tl data_type o out rest :
    byte_val x <> 0 ->
    index (slice (x :: tl) 1 (1 + Z.to_nat (byte_val x))) 0 = ret data_type ->
    pp_eir_element I (byte_val x)
      (slice (x :: tl) 1 (1 + Z.to_nat (byte_val x))) data_type
    = (o, Normal tt) ->
    walked I (drop (1 + Z.to_nat (byte_val x)) (x :: tl)) out rest ->
    walked I (x :: tl) ((print_end [INDENT I] "").1 ++ o ++ out) rest.

(** ** The shape of an inquiry result *)

(** The size of the fixed layout that the handler unpacks for an event code,
    the codes taken in the order in which the handler tests them. *)
Definition layout_size (I : Imports) (event_code : Z) : option nat :=
  if event_code =? HCI_Inquiry_Result I then Some 14%nat
  else if event_code =? HCI_Inquiry_Result_with_RSSI I then Some 14%nat
  else if event_code =? HCI_Extended_Inquiry_Result I then Some 254%nat
  else None.

(** An event of one of the three inquiry-result variants that announces one
    response: the event code (known to [HciEventCodes] under [name]), the
    parameter length, [Num_Responses = 1], then [fields]; [size] is the size
    of the variant's layout. *)
Definition single_response (I : Imports) (result : list byte) (name : string)
    (size : nat) (fields : list byte) : Prop :=
  exists code plen, result = code :: plen :: x01%byte :: fields /\
    HciEventCodes I (byte_val code) = Some name /\
    layout_size I (byte_val code) = Some size.

(** The address of an event as the handler formats it: the handler passes
    [result[2:]], the method unpacks [params[1:]], and the first field is the
    address. *)
Definition result_bd_addr (result : list byte) : string :=
  format_bd_addr (slice (drop 1 (drop 2 result)) 0 6).

(** What a call may do to the scanner: leave it as it is, or append an
    address that was not yet in [scanned_dev]. *)
Definition kept_or_appended (self : BRScanner) (bd_addr : string)
    (self' : BRScanner) : Prop :=
  self' = self \/
  ((bd_addr ∉ scanned_dev self) /\ self' = scanned_dev_append self bd_addr).

(** What the handler logs on entry. *)
Definition entered (name : string) : event :=
  Log DEBUG ("Entered inquiry(), inquiry_result_handler()" +:+ nl +:+ name).

(** A basic inquiry result for AA:BB:CC:DD:EE:FF with CoD 0x5A020C. *)
Definition basic_result : list byte :=
  [x02; x0f; x01; xff; xee; xdd; xcc; xbb; xaa; x01; x00; x00;
   x0c; x02; x5a; x00; x00]%byte.

(** The same event cut after the address. *)
Definition short_result : list byte := take 9 basic_result.

(** An inquiry result with RSSI for the same address. *)
Definition rssi_result : list byte :=
  [x22; x0f; x01; xff; xee; xdd; xcc; xbb; xaa; x01; x00;
   x0c; x02; x5a; x00; x00; xc4]%byte.

Definition scanner : BRScanner :=
  {| iface := "hci0"; devid := 0; scanned_dev := [];
     remote_name_req_flag := true |}.

(** ** The walker over a store of objects

    A Python name is bound to an object, and a function that is handed an
    object could change it under its caller.  To state that the EIR walker
    does not, the walker is embedded a second time over a store of [bytes]
    objects: a name holds a location, indexing reads the object at the
    location, and a slice makes a new object.  The local name [ext_inq_rsp]
    is rebound in every turn of the loop; the caller's object is read only.
    The objects that [pp_eir_element] makes while it prints one element are
    not tracked: nothing outlives the statement that makes them. *)

Definition H (A : Type) : Type :=
  gmap nat (list byte) -> gmap nat (list byte) * M A.

Definition lift {A} (m : M A) : H A := fun h => (h, m).

Definition hbind {A B} (c : H A) (k : A -> H B) : H B := fun h =>
  match c h with
  | (h1, (out, Normal a)) =>
    let '(h2, (out', r)) := k a h1 in (h2, (out ++ out', r))
  | (h1, (out, Raised e)) => (h1, (out, Raised e))
  | (h1, (out, OutOfFuel)) => (h1, (out, OutOfFuel))
  end.

Notation "x <~ c ;; k" := (hbind c (fun x => k))
  (at level 100, c at next level, right associativity).
Notation "c ;;~ k" := (hbind c (fun _ => k))
  (at level 100, right associativity).

(** The object that a name is bound to. *)
Definition bytes_at (l : nat) : H (list byte) := fun h => (h, ret (h !!! l)).

(** A new [bytes] object, at a location that is not in use. *)
Definition new_bytes (b : list byte) : H nat := fun h =>
  let l := fresh (dom h) in (<[l := b]> h, ret l).

Fixpoint eir_loop_obj (I : Imports) (fuel : nat) (ext_inq_rsp : nat) : H unit :=
  match fuel with
  | O => lift ([], OutOfFuel)
  | S fuel' =>
    b <~ bytes_at ext_inq_rsp ;;
    b0 <~ lift (index b 0) ;;
    if b0 =? 0 then lift (ret tt)
    else
      let length := b0 in
      data <~ new_bytes (slice b 1 (1 + Z.to_nat length)) ;;
      d <~ bytes_at data ;;
      data_type <~ lift (index d 0) ;;
      b <~ bytes_at ext_inq_rsp ;;
      ext_inq_rsp' <~ new_bytes (drop (1 + Z.to_nat length) b) ;;
      lift (print_end [INDENT I] "") ;;~
      d <~ bytes_at data ;;
      lift (pp_eir_element I length d data_type) ;;~
      eir_loop_obj I fuel' ext_inq_rsp'
  end.

Definition pp_ext_inquiry_rsp_obj (I : Imports) (ext_inq_rsp : nat) : H unit :=
  lift (print_end ["Extended inquiry response: "] "") ;;~
  b <~ bytes_at ext_inq_rsp ;;
  b0 <~ lift (index b 0) ;;
  if b0 =? 0 then lift (print [red I "None"])
  else
    lift (print []) ;;~
    b <~ bytes_at ext_inq_rsp ;;
    eir_loop_obj I (S (List.length b)) ext_inq_rsp.

(** The caller's side: the same object is handed to the walker twice. *)
Definition walk_twice (I : Imports) (ext_inq_rsp : nat)
    (h : gmap nat (list byte)) : gmap nat (list byte) * M unit * M unit :=
  let '(h1, m1) := pp_ext_inquiry_rsp_obj I ext_inq_rsp h in
  let '(h2, m2) := pp_ext_inquiry_rsp_obj I ext_inq_rsp h1 in
  (h2, m1, m2).

(** What a method does with an address that is not yet in [scanned_dev]:
    the first thing printed is the address line, and a normal return hands
    back the scanner with the address appended. *)
Definition shown_and_stored (I : Imports) (self : BRScanner)
    (bd_addr : string) (m : M BRScanner) : Prop :=
  returns (fun self' => self' = scanned_dev_append self bd_addr) m /\
  exists out,
    m.1 = Print (line ["Addr:"; blue I bd_addr;
                       "(" +:+ bdaddr_to_company_name I bd_addr +:+ ")"])
          :: out.

(** Two hexadecimal digits read back as a byte: the inverse of ['%02X'] on
    bytes, by which the formatting of an address is shown to lose nothing. *)
Definition byte_of_hex (s : string) : option byte :=
  Byte.of_N (HexString.Raw.to_N s 0).

(** The bits that [pp_cod] tests for the service class and the names it
    prints for them, in the order of the tests. *)
Definition service_class_bits : list (Z * string) :=
  [ (23, "Information"); (22, "Telephony"); (21, "Audio");
    (20, "Object Transfer"); (19, "Capturing"); (18, "Rendering");
    (17, "Networking"); (16, "Positioning");
    (13, "Limited Discoverable Mode") ]%string.

(** A computation that returns normally. *)
Definition succeeds (m : M unit) : Prop := m.2 = Normal tt.

(** The block starts with a length byte of zero. *)
Definition terminated (b : list byte) : Prop :=
  exists x tl, b = x :: tl /\ byte_val x = 0.

(** [does rs r m]: the computation [m] sends the requests [rs] to the
    controller, in this order, and ends with the outcome [r]. *)
Definition does (rs : list hci_call) (r : outcome unit) (m : M unit) : Prop :=
  requests m.1 = rs /\ m.2 = r.

(** A remote device with two pages of extended features, of which page 1
    cannot be read. *)
Definition hci_page1_fails : Controller := {|
  create_connection := create_connection hci_no_ext;
  read_remote_version_information := read_remote_version_information hci_no_ext;
  read_remote_supported_features := fun _ =>
    {| rf_status := 0; lmp_features := repeat xff%byte 8 |};
  read_remote_extended_features := fun _ page =>
    {| re_status := if page =? 1 then 8 else 0; max_page_num := 2;
       ext_lmp_features := repeat x00%byte 8 |}
|}.

(** A remote device whose page 0 of the extended features cannot be read. *)
Definition hci_page0_fails : Controller := {|
  create_connection := create_connection hci_no_ext;
  read_remote_version_information := read_remote_version_information hci_no_ext;
  read_remote_supported_features := read_remote_supported_features hci_no_ext;
  read_remote_extended_features := fun _ _ =>
    {| re_status := 8; max_page_num := 0; ext_lmp_features := [] |}
|}.

(** ** The name requests of [BRScanner.inquiry]

    After [hci.inquiry] has returned, [inquiry] asks the controller for the
    name of every address in [scanned_dev].  [hci.remote_name_request]
    answers with a completion event, or raises [TimeoutError], which the
    loop catches, or raises [HciRuntimeError], which the [try] around the
    whole of [inquiry] catches and logs.  A [KeyboardInterrupt] is not
    modelled. *)

Inductive name_reply : Type :=
| RemoteNameRequestComplete (status : Z) (remote_name : string)
| NameTimeoutError
| NameHciRuntimeError (text : string).

(** What the name requests add to the trace: output, or a request. *)
Inductive name_event : Type :=
| Output (e : event)
| RemoteNameRequest (bd_addr : string).

(** How the [for] loop is left: at its end, by an [HciRuntimeError], or by
    an exception that nothing in [inquiry] catches. *)
Inductive loop_exit : Type :=
| LoopDone
| LoopHciRuntimeError (text : string)
| LoopRaised (e : exn).

Section Names.

Context (I : Imports) (remote_name_request : string -> name_reply).

(** [print("{} : {}".format(bd_addr, blue(name)))]. *)
Definition name_line (bd_addr name : string) : name_event :=
  Output (Print (line [bd_addr +:+ " : " +:+ blue I name])).

Fixpoint request_names_loop (devs : list string)
  : list name_event * loop_exit :=
  match devs with
  | [] => ([], LoopDone)
  | bd_addr :: devs' =>
    match remote_name_request bd_addr with
    | RemoteNameRequestComplete status remote_name =>
      if negb (status =? SUCCESS I) then
        match ControllerErrorCodes I status with
        | Some code_name =>
          let '(t, r) := request_names_loop devs' in
          (RemoteNameRequest bd_addr
           :: Output (Log ERROR
                ("Failed to request remote name " +:+ bd_addr +:+ nl
                 +:+ "    remote name request complete status: 0x"
                 +:+ fmt_x 2 status +:+ " - " +:+ code_name))
           :: name_line bd_addr "" :: t, r)
        | None => ([RemoteNameRequest bd_addr], LoopRaised KeyError)
        end
      else
        let '(t, r) := request_names_loop devs' in
        (RemoteNameRequest bd_addr :: name_line bd_addr remote_name :: t, r)
    | NameTimeoutError =>
      let '(t, r) := request_names_loop devs' in
      (RemoteNameRequest bd_addr :: name_line bd_addr "" :: t, r)
    | NameHciRuntimeError text =>
      ([RemoteNameRequest bd_addr], LoopHciRuntimeError text)
    end
  end.

(** [inquiry] from the test of [remote_name_req_flag] to the end of its
    [try] statement. *)
Definition request_names (self : BRScanner) : list name_event * outcome unit :=
  if (remote_name_req_flag self
      && negb (Nat.eqb (List.length (scanned_dev self)) 0))%bool then
    match request_names_loop (scanned_dev self) with
    | (t, LoopDone) =>
      (Output (Log INFO "Requesting the name of the scanned devices...") :: t,
       Normal tt)
    | (t, LoopHciRuntimeError text) =>
      (Output (Log INFO "Requesting the name of the scanned devices...") :: t
       ++ [Output (Log ERROR text)], Normal tt)
    | (t, LoopRaised e) =>
      (Output (Log INFO "Requesting the name of the scanned devices...") :: t,
       Raised e)
    end
  else ([], Normal tt).

(** The name that is printed for an address. *)
Definition printed_name (bd_addr : string) : string :=
  match remote_name_request bd_addr with
  | RemoteNameRequestComplete status remote_name =>
    if status =? SUCCESS I then remote_name else ""
  | _ => ""
  end.

(** The request for an address is answered, and a status that is not
    [SUCCESS] has a name in [ControllerErrorCodes]. *)
Definition answered (bd_addr : string) : Prop :=
  match remote_name_request bd_addr with
  | RemoteNameRequestComplete status _ =>
    status = SUCCESS I \/ is_Some (ControllerErrorCodes I status)
  | NameTimeoutError => True
  | NameHciRuntimeError _ => False
  end.

End Names.

(** The addresses asked for, and the lines printed, in a trace. *)
Fixpoint name_requests (t : list name_event) : list string :=
  match t with
  | [] => []
  | RemoteNameRequest a :: t' => a :: name_requests t'
  | _ :: t' => name_requests t'
  end.

Fixpoint name_lines (t : list name_event) : list string :=
  match t with
  | [] => []
  | Output (Print s) :: t' => s :: name_lines t'
  | _ :: t' => name_lines t'
  end.

(** A controller that knows one device by name, times out on a second and
    answers 0x04 for every other. *)
Definition name_oracle (bd_addr : string) : name_reply :=
  if String.eqb bd_addr "AA:BB:CC:DD:EE:FF" then RemoteNameRequestComplete 0 "phone"
  else if String.eqb bd_addr "11:22:33:44:55:66" then NameTimeoutError
  else RemoteNameRequestComplete 4 "".

(** The element types whose name is looked up in [gap_type_names] without
    a guard: the three UUID lists, the two local names and the TX power
    level. *)
Definition unguarded_type (I : Imports) (data_type : Z) : Prop :=
  data_type = COMPLETE_LIST_OF_16_BIT_SERVICE_CLASS_UUIDS I \/
  data_type = COMPLETE_LIST_OF_32_BIT_SERVICE_CLASS_UUIDS I \/
  data_type = COMPLETE_LIST_OF_128_BIT_SERVICE_CLASS_UUIDS I \/
  data_type = SHORTENED_LOCAL_NAME I \/
  data_type = COMPLETE_LOCAL_NAME I \/
  data_type = TX_POWER_LEVEL I.

(** The three types of UUID lists. *)
Definition uuid_list_type (I : Imports) (data_type : Z) : Prop :=
  data_type = COMPLETE_LIST_OF_16_BIT_SERVICE_CLASS_UUIDS I \/
  data_type = COMPLETE_LIST_OF_32_BIT_SERVICE_CLASS_UUIDS I \/
  data_type = COMPLETE_LIST_OF_128_BIT_SERVICE_CLASS_UUIDS I.

(** * Properties *)

(** ** The monad *)

Lemma bind_ret_l {A B} (a : A) (k : A -> M B) : bind (ret a) k = k a.
Proof. unfold bind, ret. destruct (k a). reflexivity. Qed.

Lemma bind_normal {A B} (out : list event) (a : A) (k : A -> M B) :
  bind (out, Normal a) k = (out ++ (k a).1, (k a).2).
Proof. unfold bind. destruct (k a). reflexivity. Qed.

Lemma bind_snd {A B} (m : M A) (k : A -> M B) :
  (bind m k).2
  = match m.2 with
    | Normal a => (k a).2
    | Raised e => Raised e
    | OutOfFuel => OutOfFuel
    end.
Proof. destruct m as [out [a | e |]]; simpl; [destruct (k a) |..]; reflexivity. Qed.

Lemma index_raised (b : list byte) (i : nat) (out : list event) (e : exn) :
  index b i = (out, Raised e) -> e = IndexError.
Proof.
  unfold index. destruct (b !! i); intros Heq; inversion Heq; reflexivity.
Qed.

Lemma index_normal (b : list byte) (i : nat) (out : list event) (v : Z) :
  index b i = (out, Normal v) -> out = [].
Proof.
  unfold index. destruct (b !! i); intros Heq; inversion Heq; reflexivity.
Qed.

Lemma ends_bind {A B} (m : M A) (k : A -> M B) :
  ends m -> (forall a, ends (k a)) -> ends (bind m k).
Proof.
  unfold ends. intros Hm Hk. rewrite bind_snd.
  destruct m.2; [apply Hk | discriminate | congruence].
Qed.

Lemma ends_emit (e : event) : ends (emit e).
Proof. discriminate. Qed.

Lemma ends_ret {A} (a : A) : ends (ret a).
Proof. discriminate. Qed.

Lemma ends_raise {A} (e : exn) : ends (@raise A e).
Proof. discriminate. Qed.

Lemma ends_subscript {A} (o : option A) : ends (subscript o).
Proof. destruct o; discriminate. Qed.

Lemma ends_index (b : list byte) (i : nat) : ends (index b i).
Proof. unfold index. destruct (b !! i); discriminate. Qed.

Lemma ends_for_each {A} (l : list A) (body : A -> M unit) :
  (forall x, ends (body x)) -> ends (for_each l body).
Proof.
  intros Hb. induction l as [| x l IH]; simpl.
  - apply ends_ret.
  - apply ends_bind; [apply Hb | intros _; exact IH].
Qed.

Create HintDb ends.
#[local] Hint Resolve ends_emit ends_ret ends_raise ends_subscript ends_index : ends.

Ltac ends_tac :=
  repeat first
    [ apply ends_bind; [| intro]
    | apply ends_for_each; intro
    | progress unfold print, print_end, log, when
    | solve [auto with ends]
    | match goal with
      | |- ends (if ?c then _ else _) => destruct c
      | |- ends (match ?o with _ => _ end) => destruct o
      end ].

Lemma ends_pp_eir_element (I : Imports) (length : Z) (data : list byte)
    (data_type : Z) :
  ends (pp_eir_element I length data data_type).
Proof. unfold pp_eir_element. ends_tac. Qed.


(** ** Feature pages *)

(** The condition of the guard after the base features, [not True if c else
    False], is false whatever the tested bit is. *)
Lemma ext_features_guard_false (b7 : Z) :
  (if negb (Z.land (Z.shiftr b7 7) 1 =? 0) then negb true else false) = false.
Proof. destruct (negb _); reflexivity. Qed.

(** C1.  The claim: when the base features are read and their bit "extended
    features" is clear, no [read_remote_extended_features] request is sent.
    The guard that tests the bit can never fire, so on the device
    [hci_no_ext] the flow goes on to request page 0 and page 1. *)
Theorem scan_lmp_feature_ext_bit_clear_requests_pages :
  Z.land (Z.shiftr (byte_val x07) 7) 1 = 0 /\
  requests (scan_lmp_feature bt_imports hci_no_ext "AA:BB:CC:DD:EE:FF").1
  = [ CreateConnection "AA:BB:CC:DD:EE:FF" 2;
      ReadRemoteVersionInformation 11;
      ReadRemoteSupportedFeatures 11;
      ReadRemoteExtendedFeatures 11 0;
      ReadRemoteExtendedFeatures 11 1;
      Disconnect 11 ] /\
  (scan_lmp_feature bt_imports hci_no_ext "AA:BB:CC:DD:EE:FF").2 = Normal tt.
Proof. repeat split; vm_compute; reflexivity. Qed.

(** X16.  Whatever the remote device is: when the connection is made and the
    version read fails, the flow exits after two requests. *)
Lemma scan_lmp_feature_version_failure (I : Imports) (hci : Controller)
    (paddr : string) :
  cc_status (create_connection hci paddr 2) = SUCCESS I ->
  rv_status (read_remote_version_information hci
               (conn_handle (create_connection hci paddr 2))) <> SUCCESS I ->
  scan_lmp_feature I hci paddr
  = ([ Hci (CreateConnection paddr 2);
       Hci (ReadRemoteVersionInformation
              (conn_handle (create_connection hci paddr 2)));
       Log ERROR "Failed to read remote version" ],
     Raised (SystemExit 1)).
Proof.
  intros Hcc Hrv. unfold scan_lmp_feature.
  rewrite Hcc, Z.eqb_refl. apply Z.eqb_neq in Hrv. rewrite Hrv. reflexivity.
Qed.

(** C2.  The claim: every exit after the connection is made sends a
    disconnect first.  When the version read fails the flow exits with
    status 1 after two requests, none of them a disconnect; when the read of
    the base features fails it stops on [UnboundLocalError] before its own
    disconnect is reached. *)
Theorem scan_lmp_feature_exits_without_disconnect :
  (requests
     (scan_lmp_feature bt_imports hci_version_fails "AA:BB:CC:DD:EE:FF").1
   = [ CreateConnection "AA:BB:CC:DD:EE:FF" 2;
       ReadRemoteVersionInformation 11 ] /\
   (scan_lmp_feature bt_imports hci_version_fails "AA:BB:CC:DD:EE:FF").2
   = Raised (SystemExit 1)) /\
  (requests
     (scan_lmp_feature bt_imports hci_features_fail "AA:BB:CC:DD:EE:FF").1
   = [ CreateConnection "AA:BB:CC:DD:EE:FF" 2;
       ReadRemoteVersionInformation 11;
       ReadRemoteSupportedFeatures 11 ] /\
   (scan_lmp_feature bt_imports hci_features_fail "AA:BB:CC:DD:EE:FF").2
   = Raised UnboundLocalError).
Proof. repeat split; vm_compute; reflexivity. Qed.

(** ** Class of Device *)

(** C9.  A CoD whose format bits 0-1 are not 00 is answered with the warning
    alone: nothing of the service, major or minor class is decoded or
    printed, and [pp_cod] returns normally. *)
Theorem pp_cod_invalid_format (I : Imports) (cod : Z) :
  Z.land cod 3 <> 0 ->
  pp_cod I cod
  = ([ Log DEBUG "Entered br_scan.py, pp_cod()";
       Log WARNING "CoD's Format Type is not format #1" ], Normal tt).
Proof.
  intros Hfmt. unfold pp_cod.
  apply Z.eqb_neq in Hfmt. rewrite Hfmt, orb_true_r. reflexivity.
Qed.

Lemma pp_cod_invalid_format_witness :
  Z.land 5898765 3 <> 0 /\
  pp_cod bt_imports 5898765
  = ([ Log DEBUG "Entered br_scan.py, pp_cod()";
       Log WARNING "CoD's Format Type is not format #1" ], Normal tt).
Proof.
  split; [ vm_compute; discriminate
         | apply (pp_cod_invalid_format bt_imports 5898765);
           vm_compute; discriminate ].
Defined.

Lemma when_print_snd (c : Z) (args : list string) :
  (when c (print args)).2 = Normal tt.
Proof. unfold when. destruct (c =? 0); reflexivity. Qed.

(** On a CoD of format #1, [pp_cod] fails exactly when the major class is
    not a key of [major_dev_clses]. *)
Lemma pp_cod_outcome (I : Imports) (cod : Z) :
  Z.land cod 3 = 0 -> cod <= 16777215 ->
  (pp_cod I cod).2
  = match major_dev_clses !! Z.land (Z.shiftr cod 8) 31 with
    | Some _ => Normal tt
    | None => Raised KeyError
    end.
Proof.
  intros Hfmt Hmax. unfold pp_cod.
  rewrite bind_snd. cbn [log emit snd].
  rewrite Hfmt, Z.gtb_ltb, (proj2 (Z.ltb_ge _ _) Hmax).
  cbn [Z.eqb negb orb].
  rewrite bind_snd. cbn [print emit snd].
  do 9 (rewrite bind_snd, when_print_snd).
  rewrite bind_snd.
  destruct (major_dev_clses !! Z.land (Z.shiftr cod 8) 31); reflexivity.
Qed.

(** C4.  The claim: a major class code outside the table is shown as raw
    bits and nothing fails.  For CoD 0x000A00 (format bits 00, major class
    0b01010) the lookup in [major_dev_clses] raises [KeyError] before the
    line with the raw bits is printed. *)
Theorem pp_cod_unknown_major_raises (I : Imports) :
  Z.land 2560 3 = 0 /\
  Z.land (Z.shiftr 2560 8) 31 = 10 /\
  pp_cod I 2560
  = ([ Log DEBUG "Entered br_scan.py, pp_cod()";
       Print (line [INDENT I +:+ "Service Class: 0b0"]) ], Raised KeyError).
Proof. repeat split; reflexivity. Qed.

(** C5, the claim as stated, at the instance [bt_imports]: CoD 0x5A020C would
    be reported with a major class line naming Audio/Video and with the
    Rendering line.  Neither line is printed. *)
Lemma cod_5A020C_is_not_audio_video :
  (Print (line ["    Major Device Class: 0b100,"; "Audio/Video"])
     ∉ (pp_cod bt_imports 5898764).1)
  /\ (Print (line ["        Rendering"]) ∉ (pp_cod bt_imports 5898764).1).
Proof.
  split; apply (proj1 (bool_decide_eq_false _)); vm_compute; reflexivity.
Qed.

(** C5, amended.  CoD 0x5A020C has 0b00010 in bits 8-12 and bit 18 clear:
    the decoder reports major class Phone and the service classes Telephony,
    Object Transfer, Capturing and Networking; Rendering is not among
    them. *)
Theorem pp_cod_5A020C (I : Imports) :
  Z.land (Z.shiftr 5898764 8) 31 = 2 /\
  rendering 5898764 = 0 /\
  pp_cod I 5898764
  = ([ Log DEBUG "Entered br_scan.py, pp_cod()";
       Print (line [INDENT I +:+ "Service Class: 0b1011010000"]);
       Print (line [str_mul (INDENT I) 2 +:+ "Telephony"]);
       Print (line [str_mul (INDENT I) 2 +:+ "Object Transfer"]);
       Print (line [str_mul (INDENT I) 2 +:+ "Capturing"]);
       Print (line [str_mul (INDENT I) 2 +:+ "Networking"]);
       Print (line [INDENT I +:+ "Major Device Class: 0b10,";
                    blue I "Phone"]) ], Normal tt).
Proof. repeat split; reflexivity. Qed.

(** ** Extended Inquiry Response *)

Lemma int_from_bytes_little_nonneg (b : list byte) :
  0 <= int_from_bytes_little b.
Proof.
  induction b as [| x b IH]; simpl; [lia |].
  unfold byte_val. lia.
Qed.

(** Whatever the tables are, a TX power level element is printed with the
    unsigned value of its payload, which is never negative. *)
Lemma pp_eir_element_tx_power (I : Imports) (length : Z) (data : list byte)
    (name : string) :
  TX_POWER_LEVEL I <> COMPLETE_LIST_OF_16_BIT_SERVICE_CLASS_UUIDS I ->
  TX_POWER_LEVEL I <> COMPLETE_LIST_OF_32_BIT_SERVICE_CLASS_UUIDS I ->
  TX_POWER_LEVEL I <> COMPLETE_LIST_OF_128_BIT_SERVICE_CLASS_UUIDS I ->
  TX_POWER_LEVEL I <> SHORTENED_LOCAL_NAME I ->
  TX_POWER_LEVEL I <> COMPLETE_LOCAL_NAME I ->
  gap_type_names I (TX_POWER_LEVEL I) = Some name ->
  pp_eir_element I length data (TX_POWER_LEVEL I)
  = print [name +:+ ":";
           blue I (fmt_d (int_from_bytes_little (drop 1 data)) +:+ " dBm")] /\
  0 <= int_from_bytes_little (drop 1 data).
Proof.
  intros H16 H32 H128 Hs Hc Hname. split; [| apply int_from_bytes_little_nonneg].
  unfold pp_eir_element.
  rewrite !(proj2 (Z.eqb_neq _ _)) by assumption.
  rewrite Z.eqb_refl, Hname. cbn [orb subscript].
  rewrite bind_ret_l. reflexivity.
Qed.

(** C8.  The claim: the payload byte of a TX power level element is read as
    a signed value, 0xF4 as -12 dBm.  [int.from_bytes] is called without
    [signed=True]; the element [02 0A F4] is printed as 244 dBm. *)
Theorem pp_ext_inquiry_rsp_tx_power_unsigned :
  List.length (eir_block [x02; x0a; xf4]%byte) = 240%nat /\
  pp_ext_inquiry_rsp bt_imports (eir_block [x02; x0a; xf4]%byte)
  = ([ Print "Extended inquiry response: "; Print nl; Print "    ";
       Print (line ["Tx Power Level:"; "244 dBm"]) ], Normal tt).
Proof. split; vm_compute; reflexivity. Qed.

(** One turn of the loop on a buffer that is not empty. *)
Lemma eir_loop_turn (I : Imports) (fuel : nat) (x : byte) (tl : list byte) :
  eir_loop I (S fuel) (x :: tl)
  = if byte_val x =? 0 then ret tt
    else
      data_type <- index (slice (x :: tl) 1 (1 + Z.to_nat (byte_val x))) 0 ;;
      print_end [INDENT I] "" ;;;
      pp_eir_element I (byte_val x)
        (slice (x :: tl) 1 (1 + Z.to_nat (byte_val x))) data_type ;;;
      eir_loop I fuel (drop (1 + Z.to_nat (byte_val x)) (x :: tl)).
Proof.
  change (eir_loop I (S fuel) (x :: tl))
    with (bind (@ret Z (byte_val x)) (fun b0 =>
      if b0 =? 0 then ret tt
      else
        data_type <- index (slice (x :: tl) 1 (1 + Z.to_nat b0)) 0 ;;
        print_end [INDENT I] "" ;;;
        pp_eir_element I b0 (slice (x :: tl) 1 (1 + Z.to_nat b0)) data_type ;;;
        eir_loop I fuel (drop (1 + Z.to_nat b0) (x :: tl)))).
  apply bind_ret_l.
Qed.

Lemma eir_loop_empty (I : Imports) (fuel : nat) :
  eir_loop I (S fuel) [] = raise IndexError.
Proof. reflexivity. Qed.

(** The loop never runs out of turns when it is given more turns than the
    buffer has bytes. *)
Lemma eir_loop_fuel (I : Imports) (fuel : nat) (b : list byte) :
  (List.length b < fuel)%nat -> ends (eir_loop I fuel b).
Proof.
  revert b. induction fuel as [| fuel IH]; intros b Hlen; [lia |].
  destruct b as [| x tl].
  - discriminate.
  - rewrite eir_loop_turn. destruct (byte_val x =? 0); [apply ends_ret |].
    apply ends_bind; [apply ends_index | intros data_type].
    apply ends_bind; [apply ends_emit | intros _].
    apply ends_bind; [apply ends_pp_eir_element | intros _].
    apply IH. rewrite length_drop. simpl in Hlen |- *. lia.
Qed.

Lemma eir_loop_normal_chain_ends (I : Imports) (fuel : nat) (b : list byte) :
  (eir_loop I fuel b).2 = Normal tt -> eir_chain_ends fuel b = true.
Proof.
  revert b. induction fuel as [| fuel IH]; intros b; [discriminate |].
  destruct b as [| x tl]; [discriminate |].
  rewrite eir_loop_turn. cbn [eir_chain_ends].
  destruct (byte_val x =? 0); [reflexivity |].
  rewrite bind_snd. destruct (index _ 0).2; [| discriminate..].
  rewrite bind_snd. destruct (print_end _ _).2; [| discriminate..].
  rewrite bind_snd. destruct (pp_eir_element _ _ _ _).2; [| discriminate..].
  apply IH.
Qed.

Lemma walked_overrun_raises (I : Imports) (b rest : list byte)
    (out : list event) :
  walked I b out rest -> overruns rest ->
  forall fuel, (List.length b < fuel)%nat ->
  exists out' e, eir_loop I fuel b = (out ++ out', Raised e) /\
    (e = IndexError \/ element_raises I rest e).
Proof.
  induction 1 as [b | x tl data_type o out rest Hx Hidx Hpp Hw IH];
    intros Hover fuel Hlen.
  - destruct Hover as (x & tl & -> & Hx & Hover).
    destruct fuel as [| fuel]; [lia |]. rewrite eir_loop_turn.
    apply Z.eqb_neq in Hx. rewrite Hx.
    destruct (index (slice (x :: tl) 1 (1 + Z.to_nat (byte_val x))) 0)
      as [o1 [data_type | e |]] eqn:Hidx.
    + apply index_normal in Hidx as Heq. subst o1.
      rewrite bind_normal. unfold print_end, emit. rewrite bind_normal.
      pose proof (ends_pp_eir_element I (byte_val x)
        (slice (x :: tl) 1 (1 + Z.to_nat (byte_val x))) data_type) as Hends.
      destruct (pp_eir_element _ _ _ _) as [o2 [[] | e |]] eqn:Hpp.
      * rewrite bind_normal.
        rewrite (drop_ge (x :: tl)) by exact Hover.
        destruct fuel as [| fuel].
        { simpl in Hlen. lia. }
        rewrite eir_loop_empty. simpl. eauto.
      * simpl. do 2 eexists. split; [reflexivity |]. right.
        exists x, tl, data_type, o2. repeat split; assumption.
      * exfalso. apply Hends. reflexivity.
    + apply index_raised in Hidx as Heq. subst e. simpl. eauto.
    + unfold index in Hidx. destruct (_ !! _); discriminate.
  - destruct fuel as [| fuel]; [lia |]. rewrite eir_loop_turn.
    apply Z.eqb_neq in Hx. rewrite Hx.
    rewrite Hidx, bind_ret_l. rewrite Hpp.
    destruct (IH Hover fuel) as (out' & e & Heq & Hkind).
    { rewrite length_drop. simpl in Hlen |- *. lia. }
    exists out', e. split; [| exact Hkind].
    unfold print_end, emit. rewrite !bind_normal.
    rewrite Heq. simpl. rewrite <- app_assoc. reflexivity.
Qed.

(** The walker on a block that is not empty: the heading, then the loop. *)
Lemma pp_ext_inquiry_rsp_walks (I : Imports) (x : byte) (tl : list byte) :
  pp_ext_inquiry_rsp I (x :: tl)
  = if byte_val x =? 0 then
      ((print_end ["Extended inquiry response: "] "").1
       ++ (print [red I "None"]).1, Normal tt)
    else
      ((print_end ["Extended inquiry response: "] "").1 ++ (print []).1
       ++ (eir_loop I (S (List.length (x :: tl))) (x :: tl)).1,
       (eir_loop I (S (List.length (x :: tl))) (x :: tl)).2).
Proof.
  unfold pp_ext_inquiry_rsp.
  change (index (x :: tl) 0) with (@ret Z (byte_val x)).
  unfold print_end, print, emit. rewrite bind_normal, bind_ret_l.
  destruct (byte_val x =? 0); [reflexivity |].
  rewrite bind_normal. reflexivity.
Qed.




(** ** Inquiry results *)

Lemma bind_normal_inv {A B} (m : M A) (k : A -> M B) (b : B) :
  (bind m k).2 = Normal b -> exists a, m.2 = Normal a /\ (k a).2 = Normal b.
Proof.
  rewrite bind_snd. destruct m.2 as [a | e |]; [eauto | discriminate..].
Qed.

(** The three methods on parameters that start with [Num_Responses = 1]:
    fields of the wrong size make [struct.unpack] raise, and an address that
    is already in [scanned_dev] ends the method at once. *)
Ltac single_response_tac :=
  intros;
  match goal with
  | |- context [index (x01%byte :: ?fields) 0] =>
    change (index (x01%byte :: fields) 0) with (@ret Z 1);
    rewrite bind_ret_l; cbn [Z.eqb Pos.eqb negb];
    change (drop 1 (x01%byte :: fields)) with fields
  end.

Lemma pp_inquiry_result_bad (I : Imports) (self : BRScanner)
    (fields : list byte) :
  List.length fields <> 14%nat ->
  pp_inquiry_result I self (x01%byte :: fields) = raise StructError.
Proof.
  unfold pp_inquiry_result, unpack_6sBH3sH. single_response_tac.
  rewrite (proj2 (Nat.eqb_neq _ _)) by assumption. reflexivity.
Qed.

Lemma pp_inquiry_result_with_rssi_bad (I : Imports) (self : BRScanner)
    (fields : list byte) :
  List.length fields <> 14%nat ->
  pp_inquiry_result_with_rssi I self (x01%byte :: fields) = raise StructError.
Proof.
  unfold pp_inquiry_result_with_rssi, unpack_6sBB3sHb. single_response_tac.
  rewrite (proj2 (Nat.eqb_neq _ _)) by assumption. reflexivity.
Qed.

Lemma pp_extended_inquiry_result_bad (I : Imports) (self : BRScanner)
    (fields : list byte) :
  List.length fields <> 254%nat ->
  pp_extended_inquiry_result I self (x01%byte :: fields) = raise StructError.
Proof.
  unfold pp_extended_inquiry_result, unpack_6sBB3sHb240s. single_response_tac.
  rewrite (proj2 (Nat.eqb_neq _ _)) by assumption. reflexivity.
Qed.

Lemma pp_inquiry_result_seen (I : Imports) (self : BRScanner)
    (fields : list byte) :
  List.length fields = 14%nat ->
  format_bd_addr (slice fields 0 6) ∈ scanned_dev self ->
  pp_inquiry_result I self (x01%byte :: fields) = ret self.
Proof.
  unfold pp_inquiry_result, unpack_6sBH3sH. single_response_tac.
  rewrite (proj2 (Nat.eqb_eq _ _)) by assumption.
  rewrite bind_ret_l. cbv beta iota zeta.
  rewrite bool_decide_eq_true_2 by assumption. reflexivity.
Qed.

Lemma pp_inquiry_result_with_rssi_seen (I : Imports) (self : BRScanner)
    (fields : list byte) :
  List.length fields = 14%nat ->
  format_bd_addr (slice fields 0 6) ∈ scanned_dev self ->
  pp_inquiry_result_with_rssi I self (x01%byte :: fields) = ret self.
Proof.
  unfold pp_inquiry_result_with_rssi, unpack_6sBB3sHb. single_response_tac.
  rewrite (proj2 (Nat.eqb_eq _ _)) by assumption.
  rewrite bind_ret_l. cbv beta iota zeta.
  rewrite bool_decide_eq_true_2 by assumption. reflexivity.
Qed.

Lemma pp_extended_inquiry_result_seen (I : Imports) (self : BRScanner)
    (fields : list byte) :
  List.length fields = 254%nat ->
  format_bd_addr (slice fields 0 6) ∈ scanned_dev self ->
  pp_extended_inquiry_result I self (x01%byte :: fields) = ret self.
Proof.
  unfold pp_extended_inquiry_result, unpack_6sBB3sHb240s. single_response_tac.
  rewrite (proj2 (Nat.eqb_eq _ _)) by assumption.
  rewrite bind_ret_l. cbv beta iota zeta.
  rewrite bool_decide_eq_true_2 by assumption. reflexivity.
Qed.

(** The handler on an event whose code [HciEventCodes] knows: the entry in
    the debug log, then the dispatch on the code. *)
Lemma handler_dispatch (I : Imports) (self : BRScanner) (code plen : byte)
    (fields : list byte) (name : string) :
  HciEventCodes I (byte_val code) = Some name ->
  inquiry_result_handler I self (code :: plen :: x01%byte :: fields)
  = (emit (entered name) ;;;
     if byte_val code =? HCI_Inquiry_Result I then
       pp_inquiry_result I self (x01%byte :: fields)
     else if byte_val code =? HCI_Inquiry_Result_with_RSSI I then
       pp_inquiry_result_with_rssi I self (x01%byte :: fields)
     else if byte_val code =? HCI_Extended_Inquiry_Result I then
       pp_extended_inquiry_result I self (x01%byte :: fields)
     else
       log WARNING ("Unknow inquiry result: "
                    +:+ str_bytes I (code :: plen :: x01%byte :: fields)) ;;;
       ret self).
Proof.
  intros Hname. unfold inquiry_result_handler.
  change (index (code :: plen :: x01%byte :: fields) 0)
    with (@ret Z (byte_val code)).
  rewrite bind_ret_l, Hname. unfold subscript. rewrite bind_ret_l.
  reflexivity.
Qed.

Lemma handler_single_response (I : Imports) (self : BRScanner)
    (result : list byte) (name : string) (size : nat) (fields : list byte) :
  single_response I result name size fields ->
  List.length fields <> size ->
  inquiry_result_handler I self result = ([entered name], Raised StructError).
Proof.
  intros (code & plen & -> & Hname & Hsize) Hlen.
  rewrite (handler_dispatch I self code plen fields name Hname).
  unfold layout_size in Hsize.
  destruct (byte_val code =? HCI_Inquiry_Result I);
    [| destruct (byte_val code =? HCI_Inquiry_Result_with_RSSI I);
       [| destruct (byte_val code =? HCI_Extended_Inquiry_Result I);
          [| discriminate]]];
    injection Hsize as <-.
  - rewrite pp_inquiry_result_bad by assumption. reflexivity.
  - rewrite pp_inquiry_result_with_rssi_bad by assumption. reflexivity.
  - rewrite pp_extended_inquiry_result_bad by assumption. reflexivity.
Qed.

(** An event whose address is already in [scanned_dev] leaves no trace but
    the handler's entry in the debug log. *)
Lemma handler_seen (I : Imports) (self : BRScanner)
    (result : list byte) (name : string) (size : nat) (fields : list byte) :
  single_response I result name size fields ->
  List.length fields = size ->
  result_bd_addr result ∈ scanned_dev self ->
  inquiry_result_handler I self result = ([entered name], Normal self).
Proof.
  intros (code & plen & -> & Hname & Hsize) Hlen Hin.
  rewrite (handler_dispatch I self code plen fields name Hname).
  unfold layout_size in Hsize.
  change (result_bd_addr (code :: plen :: x01%byte :: fields))
    with (format_bd_addr (slice fields 0 6)) in Hin.
  destruct (byte_val code =? HCI_Inquiry_Result I);
    [| destruct (byte_val code =? HCI_Inquiry_Result_with_RSSI I);
       [| destruct (byte_val code =? HCI_Extended_Inquiry_Result I);
          [| discriminate]]];
    injection Hsize as <-.
  - rewrite pp_inquiry_result_seen by assumption. reflexivity.
  - rewrite pp_inquiry_result_with_rssi_seen by assumption. reflexivity.
  - rewrite pp_extended_inquiry_result_seen by assumption. reflexivity.
Qed.

(** C7, the claim as stated, at the instance [bt_imports]: a short buffer is
    logged and dropped by the decoding itself.  For a basic inquiry result
    cut after the address, the method raises [struct.error] and nothing in
    the handler catches it: the handler's debug line on entry is all that is
    written, no entry is logged about the failure, and the handler ends
    with the exception instead of returning. *)
Lemma short_result_not_logged :
  inquiry_result_handler bt_imports scanner short_result
  = ([entered "HCI_Inquiry_Result"], Raised StructError) /\
  (forall lvl text,
     Log lvl text ∈ (inquiry_result_handler bt_imports scanner short_result).1 ->
     Log lvl text = entered "HCI_Inquiry_Result") /\
  (forall self',
     (inquiry_result_handler bt_imports scanner short_result).2
     <> Normal self').
Proof.
  assert (inquiry_result_handler bt_imports scanner short_result
          = ([entered "HCI_Inquiry_Result"], Raised StructError)) as Heq
    by (vm_compute; reflexivity).
  rewrite Heq. split; [reflexivity | split].
  - intros lvl text Hin. apply list_elem_of_singleton in Hin. exact Hin.
  - intros self'. discriminate.
Qed.

(** C7, amended.  For every event of one of the three variants with
    [Num_Responses = 1] whose remaining fields do not have exactly the size
    of the variant's layout, [struct.unpack] raises [struct.error], and
    neither the method nor the handler catches it: the handler writes its
    debug line on entry and nothing else, so nothing is logged about the
    failure and nothing is printed or stored for the event, and the
    exception leaves the handler to its caller. *)
Theorem short_result_raises (I : Imports) (self : BRScanner)
    (result : list byte) (name : string) (size : nat) (fields : list byte) :
  single_response I result name size fields ->
  List.length fields <> size ->
  inquiry_result_handler I self result = ([entered name], Raised StructError).
Proof. apply handler_single_response. Qed.

Lemma short_result_raises_witness :
  inquiry_result_handler bt_imports scanner short_result
  = ([entered "HCI_Inquiry_Result"], Raised StructError).
Proof.
  refine (short_result_raises bt_imports scanner short_result
            "HCI_Inquiry_Result" 14 (drop 3 short_result) _ _).
  - exists x02%byte, x0f%byte. repeat split; vm_compute; reflexivity.
  - vm_compute. discriminate.
Defined.

Lemma returns_ret {A} (P : A -> Prop) (a : A) : P a -> returns P (ret a).
Proof. intros HP b Hb. injection Hb as <-. exact HP. Qed.

Lemma returns_bind {A B} (P : B -> Prop) (m : M A) (k : A -> M B) :
  (forall a, m.2 = Normal a -> returns P (k a)) -> returns P (bind m k).
Proof.
  intros Hk b Hb. apply bind_normal_inv in Hb as (a & Ha & Hb).
  exact (Hk a Ha b Hb).
Qed.

(** A method that ends in [ret v] after steps that compute nothing. *)
Ltac returns_tail :=
  repeat (apply returns_bind; intros _ _); apply returns_ret.

Section Dedup.

Context (I : Imports) (self : BRScanner).

Lemma pp_inquiry_result_state (params : list byte) :
  returns (kept_or_appended self (format_bd_addr (slice (drop 1 params) 0 6)))
    (pp_inquiry_result I self params).
Proof.
  unfold pp_inquiry_result. apply returns_bind. intros num_rsp _.
  destruct (negb (num_rsp =? 1)); [returns_tail; left; reflexivity |].
  apply returns_bind. intros [[[[a b] c] d] e] Hun.
  unfold unpack_6sBH3sH in Hun.
  destruct (Nat.eqb _ 14); [| discriminate]. injection Hun as <- _ _ _ _.
  cbv beta iota zeta. destruct (bool_decide _) eqn:Hin.
  - apply returns_ret. left. reflexivity.
  - apply bool_decide_eq_false in Hin.
    returns_tail. right. split; [exact Hin | reflexivity].
Qed.

Lemma pp_inquiry_result_with_rssi_state (params : list byte) :
  returns (kept_or_appended self (format_bd_addr (slice (drop 1 params) 0 6)))
    (pp_inquiry_result_with_rssi I self params).
Proof.
  unfold pp_inquiry_result_with_rssi. apply returns_bind. intros num_rsp _.
  destruct (negb (num_rsp =? 1)); [returns_tail; left; reflexivity |].
  apply returns_bind. intros [[[[[a b] c] d] e] f] Hun.
  unfold unpack_6sBB3sHb in Hun.
  destruct (Nat.eqb _ 14); [| discriminate]. injection Hun as <- _ _ _ _ _.
  cbv beta iota zeta. destruct (bool_decide _) eqn:Hin.
  - apply returns_ret. left. reflexivity.
  - apply bool_decide_eq_false in Hin.
    returns_tail. right. split; [exact Hin | reflexivity].
Qed.

Lemma pp_extended_inquiry_result_state (params : list byte) :
  returns (kept_or_appended self (format_bd_addr (slice (drop 1 params) 0 6)))
    (pp_extended_inquiry_result I self params).
Proof.
  unfold pp_extended_inquiry_result. apply returns_bind. intros num_rsp _.
  destruct (negb (num_rsp =? 1)); [returns_tail; left; reflexivity |].
  apply returns_bind. intros [[[[[[a b] c] d] e] f] g] Hun.
  unfold unpack_6sBB3sHb240s in Hun.
  destruct (Nat.eqb _ 254); [| discriminate]. injection Hun as <- _ _ _ _ _ _.
  cbv beta iota zeta. destruct (bool_decide _) eqn:Hin.
  - apply returns_ret. left. reflexivity.
  - apply bool_decide_eq_false in Hin.
    returns_tail. right. split; [exact Hin | reflexivity].
Qed.

Lemma inquiry_result_handler_state (result : list byte) :
  returns (kept_or_appended self (result_bd_addr result))
    (inquiry_result_handler I self result).
Proof.
  unfold inquiry_result_handler, result_bd_addr.
  apply returns_bind. intros event_code _.
  apply returns_bind. intros name _.
  apply returns_bind. intros _ _.
  destruct (event_code =? _); [apply pp_inquiry_result_state |].
  destruct (event_code =? _); [apply pp_inquiry_result_with_rssi_state |].
  destruct (event_code =? _); [apply pp_extended_inquiry_result_state |].
  returns_tail. left. reflexivity.
Qed.

End Dedup.

(** Whatever is delivered, [scanned_dev] only grows at its end and stays
    free of duplicates. *)
Lemma deliver_scanned_dev (I : Imports) (results : list (list byte))
    (self : BRScanner) :
  NoDup (scanned_dev self) ->
  NoDup (scanned_dev (deliver I self results).2) /\
  scanned_dev self `prefix_of` scanned_dev (deliver I self results).2.
Proof.
  revert self. induction results as [| result results IH]; intros self Hnd.
  - split; [exact Hnd | reflexivity].
  - cbn [deliver].
    pose proof (inquiry_result_handler_state I self result) as Hst.
    destruct (inquiry_result_handler I self result) as [o [self' | e |]];
      [| | split; [exact Hnd | reflexivity]].
    2: { destruct (IH self Hnd) as [Hnd' Hpre'].
         destruct (deliver I self results) as [[o' r] self''].
         split; assumption. }
    specialize (Hst self' eq_refl).
    assert (NoDup (scanned_dev self') /\
            scanned_dev self `prefix_of` scanned_dev self') as [Hnd' Hpre].
    { destruct Hst as [-> | [Hnew ->]]; [split; [exact Hnd | reflexivity] |].
      split.
      - apply NoDup_app. split; [exact Hnd |]. split.
        + intros a Ha Hin. apply list_elem_of_singleton in Hin. congruence.
        + apply NoDup_singleton.
      - apply prefix_app_r. reflexivity. }
    destruct (IH self' Hnd') as [Hnd'' Hpre'].
    destruct (deliver I self' results) as [[o' r] self''].
    split; [exact Hnd'' | etransitivity; eassumption].
Qed.



(** ** The walker and its argument *)

Lemma hbind_bytes_at {B} (l : nat) (k : list byte -> H B)
    (h : gmap nat (list byte)) :
  hbind (bytes_at l) k h = k (h !!! l) h.
Proof.
  unfold hbind, bytes_at, ret.
  destruct (k (h !!! l) h) as [h2 [out r]]. reflexivity.
Qed.

Lemma hbind_new_bytes {B} (b : list byte) (k : nat -> H B)
    (h : gmap nat (list byte)) :
  hbind (new_bytes b) k h = k (fresh (dom h)) (<[fresh (dom h) := b]> h).
Proof.
  unfold hbind, new_bytes, ret. cbv zeta.
  destruct (k _ _) as [h2 [out r]]. reflexivity.
Qed.

Lemma hbind_lift_normal {A B} (out : list event) (a : A) (k : A -> H B)
    (h : gmap nat (list byte)) :
  hbind (lift (out, Normal a)) k h
  = ((k a h).1, (out ++ (k a h).2.1, (k a h).2.2)).
Proof.
  unfold hbind, lift. destruct (k a h) as [h2 [out' r]]. reflexivity.
Qed.

Lemma hbind_lift_ret {A B} (a : A) (k : A -> H B) (h : gmap nat (list byte)) :
  hbind (lift (ret a)) k h = k a h.
Proof.
  unfold hbind, lift, ret. destruct (k a h) as [h2 [out' r]]. reflexivity.
Qed.

Lemma hbind_lift_raised {A B} (out : list event) (e : exn) (k : A -> H B)
    (h : gmap nat (list byte)) :
  hbind (lift (out, Raised e)) k h = (h, (out, Raised e)).
Proof. reflexivity. Qed.

Lemma hbind_lift_out_of_fuel {A B} (out : list event) (k : A -> H B)
    (h : gmap nat (list byte)) :
  hbind (lift (out, OutOfFuel)) k h = (h, (out, OutOfFuel)).
Proof. reflexivity. Qed.

Lemma new_bytes_keeps (h : gmap nat (list byte)) (b : list byte) (l : nat) :
  is_Some (h !! l) ->
  h ⊆ <[fresh (dom h) := b]> h /\
  <[fresh (dom h) := b]> h !!! l = h !!! l /\
  is_Some (<[fresh (dom h) := b]> h !! l).
Proof.
  intros Hl.
  assert (fresh (dom h) <> l) as Hne.
  { intros <-. apply (is_fresh (dom h)). apply elem_of_dom. exact Hl. }
  split; [| split].
  - apply insert_subseteq. apply not_elem_of_dom. apply is_fresh.
  - apply lookup_total_insert_ne. exact Hne.
  - rewrite lookup_insert_ne by exact Hne. exact Hl.
Qed.

(** The walker over the store prints what the walker over the value of its
    argument prints, and every object of the store it started from is still
    there, unchanged. *)
Lemma eir_loop_obj_refines (I : Imports) (fuel : nat) (l : nat)
    (h : gmap nat (list byte)) :
  is_Some (h !! l) ->
  (eir_loop_obj I fuel l h).2 = eir_loop I fuel (h !!! l) /\
  h ⊆ (eir_loop_obj I fuel l h).1.
Proof.
  revert l h. induction fuel as [| fuel IH]; intros l h [b Hb].
  - split; reflexivity.
  - pose proof (mk_is_Some _ _ Hb) as Hl.
    apply lookup_total_correct in Hb.
    cbn [eir_loop_obj]. rewrite hbind_bytes_at, Hb.
    destruct b as [| x tl].
    { change (index [] 0) with (@raise Z IndexError). unfold raise.
      rewrite hbind_lift_raised. split; reflexivity. }
    rewrite eir_loop_turn.
    change (index (x :: tl) 0) with (@ret Z (byte_val x)).
    rewrite hbind_lift_ret.
    destruct (byte_val x =? 0); [split; reflexivity |].
    rewrite hbind_new_bytes, hbind_bytes_at.
    destruct (new_bytes_keeps h (slice (x :: tl) 1 (1 + Z.to_nat (byte_val x)))
                l Hl) as (Hsub1 & Hl1 & Hsome1).
    set (data := fresh (dom h)) in *.
    set (h1 := <[data := slice (x :: tl) 1 (1 + Z.to_nat (byte_val x))]> h) in *.
    assert (h1 !!! data = slice (x :: tl) 1 (1 + Z.to_nat (byte_val x))) as Hd
      by apply lookup_total_insert_eq.
    rewrite Hd.
    destruct (index (slice (x :: tl) 1 (1 + Z.to_nat (byte_val x))) 0)
      as [o0 [data_type | e |]] eqn:Hidx.
    2: { rewrite hbind_lift_raised. split; [reflexivity | exact Hsub1]. }
    2: { rewrite hbind_lift_out_of_fuel. split; [reflexivity | exact Hsub1]. }
    apply index_normal in Hidx as Heq. subst o0.
    change ([], Normal data_type) with (ret data_type).
    rewrite hbind_lift_ret, bind_ret_l.
    rewrite hbind_bytes_at, hbind_new_bytes, Hl1, Hb.
    assert (is_Some (h1 !! data)) as Hdata
      by (unfold h1; rewrite lookup_insert_eq; eauto).
    destruct (new_bytes_keeps h1 (drop (1 + Z.to_nat (byte_val x)) (x :: tl))
                data Hdata) as (Hsub2 & Hd2 & _).
    set (l' := fresh (dom h1)) in *.
    set (h2 := <[l' := drop (1 + Z.to_nat (byte_val x)) (x :: tl)]> h1) in *.
    assert (h2 !!! l' = drop (1 + Z.to_nat (byte_val x)) (x :: tl)) as Hl'
      by apply lookup_total_insert_eq.
    assert (is_Some (h2 !! l')) as Hsome'
      by (unfold h2; rewrite lookup_insert_eq; eauto).
    unfold print_end, emit.
    rewrite hbind_lift_normal, hbind_bytes_at, Hd2, Hd, bind_normal.
    destruct (IH l' h2 Hsome') as [IHm IHh]. rewrite Hl' in IHm.
    destruct (pp_eir_element I (byte_val x)
                (slice (x :: tl) 1 (1 + Z.to_nat (byte_val x))) data_type)
      as [o [[] | e |]].
    + rewrite hbind_lift_normal, bind_normal. cbn [fst snd]. rewrite IHm.
      split.
      * reflexivity.
      * etransitivity; [exact Hsub1 |]. etransitivity; [exact Hsub2 |].
        exact IHh.
    + rewrite hbind_lift_raised. cbn [fst snd]. split; [reflexivity |].
      etransitivity; [exact Hsub1 | exact Hsub2].
    + rewrite hbind_lift_out_of_fuel. cbn [fst snd]. split; [reflexivity |].
      etransitivity; [exact Hsub1 | exact Hsub2].
Qed.

Lemma pp_ext_inquiry_rsp_obj_refines (I : Imports) (l : nat)
    (h : gmap nat (list byte)) (buf : list byte) :
  h !! l = Some buf ->
  (pp_ext_inquiry_rsp_obj I l h).2 = pp_ext_inquiry_rsp I buf /\
  h ⊆ (pp_ext_inquiry_rsp_obj I l h).1.
Proof.
  intros Hl. pose proof (lookup_total_correct _ _ _ Hl) as Hb.
  unfold pp_ext_inquiry_rsp_obj, print_end, print, emit.
  rewrite hbind_lift_normal, hbind_bytes_at, Hb.
  destruct buf as [| x tl].
  { change (index [] 0) with (@raise Z IndexError). unfold raise.
    rewrite hbind_lift_raised. split; reflexivity. }
  rewrite pp_ext_inquiry_rsp_walks.
  change (index (x :: tl) 0) with (@ret Z (byte_val x)).
  rewrite hbind_lift_ret.
  destruct (byte_val x =? 0); [split; reflexivity |].
  rewrite hbind_lift_normal, hbind_bytes_at, Hb.
  destruct (eir_loop_obj_refines I (S (List.length (x :: tl))) l h
              (mk_is_Some _ _ Hl)) as [Hm Hh].
  rewrite Hb in Hm. cbn [fst snd]. rewrite Hm. split; [reflexivity | exact Hh].
Qed.

(** C10.  A 240-octet block that is handed to the walker twice is walked
    twice with the same result: the same output, element by element, and
    the same outcome, which are those of the walker on the value of the
    block.  The block itself is in the store after both walks as it was
    before. *)
Theorem walk_twice_same (I : Imports) (l : nat) (h : gmap nat (list byte))
    (buf : list byte) :
  h !! l = Some buf ->
  List.length buf = 240%nat ->
  exists h2,
    walk_twice I l h
    = (h2, pp_ext_inquiry_rsp I buf, pp_ext_inquiry_rsp I buf) /\
    h2 !! l = Some buf.
Proof.
  intros Hl _. unfold walk_twice.
  destruct (pp_ext_inquiry_rsp_obj_refines I l h buf Hl) as [Hm1 Hh1].
  destruct (pp_ext_inquiry_rsp_obj I l h) as [h1 m1]. cbn [fst snd] in *.
  assert (h1 !! l = Some buf) as Hl1
    by exact (lookup_weaken _ _ _ _ Hl Hh1).
  destruct (pp_ext_inquiry_rsp_obj_refines I l h1 buf Hl1) as [Hm2 Hh2].
  destruct (pp_ext_inquiry_rsp_obj I l h1) as [h2 m2]. cbn [fst snd] in *.
  exists h2. subst m1 m2. split; [reflexivity |].
  exact (lookup_weaken _ _ _ _ Hl1 Hh2).
Qed.

Lemma walk_twice_same_witness :
  exists h2,
    walk_twice bt_imports 5
      {[ 5%nat := eir_block [x02; x0a; x04; xff; x03]%byte ]}
    = (h2,
       pp_ext_inquiry_rsp bt_imports (eir_block [x02; x0a; x04; xff; x03]%byte),
       pp_ext_inquiry_rsp bt_imports (eir_block [x02; x0a; x04; xff; x03]%byte))
    /\ h2 !! 5%nat = Some (eir_block [x02; x0a; x04; xff; x03]%byte).
Proof.
  apply (walk_twice_same bt_imports 5
           {[ 5%nat := eir_block [x02; x0a; x04; xff; x03]%byte ]}
           (eir_block [x02; x0a; x04; xff; x03]%byte)).
  - apply lookup_singleton_eq.
  - reflexivity.
Defined.

(** ** More on the inquiry handler *)

(** X1.  An event whose code [HciEventCodes] knows but which is none of the three
    inquiry results is answered with a warning: nothing is printed and the
    scanner is left as it was. *)
Theorem handler_unknown_code (I : Imports) (self : BRScanner) (code : byte)
    (rest : list byte) (name : string) :
  HciEventCodes I (byte_val code) = Some name ->
  layout_size I (byte_val code) = None ->
  inquiry_result_handler I self (code :: rest)
  = ([ entered name;
       Log WARNING ("Unknow inquiry result: " +:+ str_bytes I (code :: rest)) ],
     Normal self).
Proof.
  intros Hname Hsize. unfold inquiry_result_handler, layout_size in *.
  change (index (code :: rest) 0) with (@ret Z (byte_val code)).
  rewrite bind_ret_l, Hname. unfold subscript. rewrite bind_ret_l.
  destruct (byte_val code =? HCI_Inquiry_Result I); [discriminate |].
  destruct (byte_val code =? HCI_Inquiry_Result_with_RSSI I); [discriminate |].
  destruct (byte_val code =? HCI_Extended_Inquiry_Result I); [discriminate |].
  reflexivity.
Qed.

Lemma handler_unknown_code_witness :
  inquiry_result_handler bt_imports scanner [x01; x01; x00]%byte
  = ([ entered "HCI_Inquiry_Complete";
       Log WARNING ("Unknow inquiry result: "
                    +:+ str_bytes bt_imports [x01; x01; x00]%byte) ],
     Normal scanner).
Proof.
  apply (handler_unknown_code bt_imports scanner x01%byte [x01; x00]%byte
           "HCI_Inquiry_Complete"); vm_compute; reflexivity.
Defined.

(** X2.  An inquiry result of any of the three variants whose [Num_Responses] is
    not 1 is logged and skipped before anything is unpacked: whatever bytes
    follow, nothing is printed, nothing is raised and the scanner is left as
    it was. *)
Theorem handler_multi_response (I : Imports) (self : BRScanner)
    (code plen num_rsp : byte) (rest : list byte) (name : string)
    (size : nat) :
  HciEventCodes I (byte_val code) = Some name ->
  layout_size I (byte_val code) = Some size ->
  byte_val num_rsp <> 1 ->
  exists info debug,
    inquiry_result_handler I self (code :: plen :: num_rsp :: rest)
    = ([entered name; Log INFO info; Log DEBUG debug], Normal self).
Proof.
  intros Hname Hsize Hnum. unfold inquiry_result_handler, layout_size in *.
  change (index (code :: plen :: num_rsp :: rest) 0)
    with (@ret Z (byte_val code)).
  rewrite bind_ret_l, Hname. unfold subscript. rewrite bind_ret_l.
  change (drop 2 (code :: plen :: num_rsp :: rest)) with (num_rsp :: rest).
  apply Z.eqb_neq in Hnum.
  destruct (byte_val code =? HCI_Inquiry_Result I);
    [| destruct (byte_val code =? HCI_Inquiry_Result_with_RSSI I);
       [| destruct (byte_val code =? HCI_Extended_Inquiry_Result I);
          [| discriminate]]].
  - unfold pp_inquiry_result.
    change (index (num_rsp :: rest) 0) with (@ret Z (byte_val num_rsp)).
    rewrite bind_ret_l, Hnum. do 2 eexists. reflexivity.
  - unfold pp_inquiry_result_with_rssi.
    change (index (num_rsp :: rest) 0) with (@ret Z (byte_val num_rsp)).
    rewrite bind_ret_l, Hnum. do 2 eexists. reflexivity.
  - unfold pp_extended_inquiry_result.
    change (index (num_rsp :: rest) 0) with (@ret Z (byte_val num_rsp)).
    rewrite bind_ret_l, Hnum. do 2 eexists. reflexivity.
Qed.

Lemma handler_multi_response_witness :
  exists info debug,
    inquiry_result_handler bt_imports scanner [x22; x02; x02; xff]%byte
    = ([entered "HCI_Inquiry_Result_with_RSSI"; Log INFO info; Log DEBUG debug],
       Normal scanner).
Proof.
  apply (handler_multi_response bt_imports scanner x22%byte x02%byte x02%byte
           [xff]%byte "HCI_Inquiry_Result_with_RSSI" 14%nat);
    vm_compute; [reflexivity | reflexivity | discriminate].
Defined.

Lemma bind_emit {B} (e : event) (k : unit -> M B) :
  bind (emit e) k = (e :: (k tt).1, (k tt).2).
Proof. unfold emit. rewrite bind_normal. reflexivity. Qed.

Lemma pp_inquiry_result_new (I : Imports) (self : BRScanner)
    (fields : list byte) :
  List.length fields = 14%nat ->
  format_bd_addr (slice fields 0 6) ∉ scanned_dev self ->
  shown_and_stored I self (format_bd_addr (slice fields 0 6))
    (pp_inquiry_result I self (x01%byte :: fields)).
Proof.
  unfold shown_and_stored, pp_inquiry_result, unpack_6sBH3sH.
  single_response_tac.
  rewrite (proj2 (Nat.eqb_eq _ _)) by assumption.
  rewrite bind_ret_l. cbv beta iota zeta.
  rewrite bool_decide_eq_false_2 by assumption. split.
  - returns_tail. reflexivity.
  - unfold print. rewrite bind_emit. eexists. reflexivity.
Qed.

Lemma pp_inquiry_result_with_rssi_new (I : Imports) (self : BRScanner)
    (fields : list byte) :
  List.length fields = 14%nat ->
  format_bd_addr (slice fields 0 6) ∉ scanned_dev self ->
  shown_and_stored I self (format_bd_addr (slice fields 0 6))
    (pp_inquiry_result_with_rssi I self (x01%byte :: fields)).
Proof.
  unfold shown_and_stored, pp_inquiry_result_with_rssi, unpack_6sBB3sHb.
  single_response_tac.
  rewrite (proj2 (Nat.eqb_eq _ _)) by assumption.
  rewrite bind_ret_l. cbv beta iota zeta.
  rewrite bool_decide_eq_false_2 by assumption. split.
  - returns_tail. reflexivity.
  - unfold print. rewrite bind_emit. eexists. reflexivity.
Qed.

Lemma pp_extended_inquiry_result_new (I : Imports) (self : BRScanner)
    (fields : list byte) :
  List.length fields = 254%nat ->
  format_bd_addr (slice fields 0 6) ∉ scanned_dev self ->
  shown_and_stored I self (format_bd_addr (slice fields 0 6))
    (pp_extended_inquiry_result I self (x01%byte :: fields)).
Proof.
  unfold shown_and_stored, pp_extended_inquiry_result, unpack_6sBB3sHb240s.
  single_response_tac.
  rewrite (proj2 (Nat.eqb_eq _ _)) by assumption.
  rewrite bind_ret_l. cbv beta iota zeta.
  rewrite bool_decide_eq_false_2 by assumption. split.
  - returns_tail. reflexivity.
  - unfold print. rewrite bind_emit. eexists. reflexivity.
Qed.

(** X4.  An event of one of the three variants with one response, fields of the
    right size and an address that is not yet in [scanned_dev]: the address
    line is the first thing printed, and if the handler returns normally the
    address has been appended to [scanned_dev], at its end. *)
Theorem handler_stores_new (I : Imports) (self : BRScanner)
    (result : list byte) (name : string) (size : nat) (fields : list byte) :
  single_response I result name size fields ->
  List.length fields = size ->
  result_bd_addr result ∉ scanned_dev self ->
  returns
    (fun self' => scanned_dev self' = scanned_dev self ++ [result_bd_addr result])
    (inquiry_result_handler I self result) /\
  exists out,
    (inquiry_result_handler I self result).1
    = entered name
      :: Print (line ["Addr:"; blue I (result_bd_addr result);
                      "(" +:+ bdaddr_to_company_name I (result_bd_addr result)
                      +:+ ")"])
      :: out.
Proof.
  intros (code & plen & -> & Hname & Hsize) Hlen Hnew.
  rewrite (handler_dispatch I self code plen fields name Hname).
  unfold layout_size in Hsize.
  change (result_bd_addr (code :: plen :: x01%byte :: fields))
    with (format_bd_addr (slice fields 0 6)) in *.
  assert (forall m, shown_and_stored I self (format_bd_addr (slice fields 0 6)) m ->
    returns (fun self' => scanned_dev self'
               = scanned_dev self ++ [format_bd_addr (slice fields 0 6)])
      (emit (entered name) ;;; m) /\
    exists out, (emit (entered name) ;;; m).1
      = entered name
        :: Print (line ["Addr:"; blue I (format_bd_addr (slice fields 0 6));
             "(" +:+ bdaddr_to_company_name I (format_bd_addr (slice fields 0 6))
             +:+ ")"]) :: out) as Hwrap.
  { intros m [Hret [out Hout]]. rewrite bind_emit. cbn [fst snd]. split.
    - intros s' Hs'. rewrite (Hret s' Hs'). reflexivity.
    - exists out. rewrite Hout. reflexivity. }
  destruct (byte_val code =? HCI_Inquiry_Result I);
    [| destruct (byte_val code =? HCI_Inquiry_Result_with_RSSI I);
       [| destruct (byte_val code =? HCI_Extended_Inquiry_Result I);
          [| discriminate]]];
    injection Hsize as <-; apply Hwrap.
  - apply pp_inquiry_result_new; assumption.
  - apply pp_inquiry_result_with_rssi_new; assumption.
  - apply pp_extended_inquiry_result_new; assumption.
Qed.

Lemma handler_stores_new_witness :
  returns
    (fun self' => scanned_dev self'
       = scanned_dev scanner ++ [result_bd_addr rssi_result])
    (inquiry_result_handler bt_imports scanner rssi_result) /\
  exists out,
    (inquiry_result_handler bt_imports scanner rssi_result).1
    = entered "HCI_Inquiry_Result_with_RSSI"
      :: Print (line ["Addr:"; blue bt_imports (result_bd_addr rssi_result);
                      "(" +:+ bdaddr_to_company_name bt_imports
                                (result_bd_addr rssi_result) +:+ ")"])
      :: out.
Proof.
  apply (handler_stores_new bt_imports scanner rssi_result
           "HCI_Inquiry_Result_with_RSSI" 14%nat (drop 3 rssi_result)).
  - exists x22%byte, x0f%byte. repeat split; vm_compute; reflexivity.
  - reflexivity.
  - apply not_elem_of_nil.
Defined.

(** Delivery composes: events delivered after a run that ended normally
    are handled from the scanner that the run left, and the outputs follow
    one another. *)
Theorem deliver_app (I : Imports) (pre post : list (list byte))
    (self s1 : BRScanner) (o1 : list event) :
  deliver I self pre = (o1, Normal tt, s1) ->
  deliver I self (pre ++ post)
  = (o1 ++ (deliver I s1 post).1.1, (deliver I s1 post).1.2,
     (deliver I s1 post).2).
Proof.
  revert self o1. induction pre as [| r pre IH]; intros self o1 Hpre.
  - injection Hpre as <- <-. simpl.
    destruct (deliver I self post) as [[o r] s]. reflexivity.
  - simpl in Hpre |- *.
    destruct (inquiry_result_handler I self r) as [o [self' | e' |]];
      [| | discriminate].
    + destruct (deliver I self' pre) as [[o' r'] s'] eqn:Hd.
      injection Hpre as <- -> ->.
      rewrite (IH self' o' Hd). rewrite app_assoc. reflexivity.
    + destruct (deliver I self pre) as [[o' r'] s'] eqn:Hd.
      injection Hpre as <- -> ->.
      rewrite (IH self o' Hd). rewrite app_assoc. reflexivity.
Qed.

Lemma deliver_app_witness :
  deliver bt_imports scanner ([basic_result] ++ [rssi_result])
  = ((inquiry_result_handler bt_imports scanner basic_result).1
     ++ (deliver bt_imports (scanned_dev_append scanner "AA:BB:CC:DD:EE:FF")
           [rssi_result]).1.1,
     (deliver bt_imports (scanned_dev_append scanner "AA:BB:CC:DD:EE:FF")
        [rssi_result]).1.2,
     (deliver bt_imports (scanned_dev_append scanner "AA:BB:CC:DD:EE:FF")
        [rssi_result]).2).
Proof.
  apply (deliver_app bt_imports [basic_result] [rssi_result] scanner).
  vm_compute. reflexivity.
Defined.

(** X6.  Every address in [scanned_dev] after a delivery was there before or is
    the address of one of the delivered events, and a delivery adds at most
    one address per event. *)
Theorem deliver_sources (I : Imports) (results : list (list byte))
    (self : BRScanner) :
  (forall a, a ∈ scanned_dev (deliver I self results).2 ->
     a ∈ scanned_dev self \/ exists r, r ∈ results /\ result_bd_addr r = a) /\
  (List.length (scanned_dev (deliver I self results).2)
   <= List.length (scanned_dev self) + List.length results)%nat.
Proof.
  revert self. induction results as [| result results IH]; intros self.
  - split; [intros a Ha; left; exact Ha | simpl; lia].
  - cbn [deliver].
    pose proof (inquiry_result_handler_state I self result) as Hst.
    destruct (inquiry_result_handler I self result) as [o [self' | e |]];
      [| | split; [intros a Ha; left; exact Ha | simpl; lia]].
    2: { destruct (IH self) as [IHa IHl].
         destruct (deliver I self results) as [[o' r] self''].
         cbn [snd] in *. split.
         - intros a Ha. destruct (IHa a Ha) as [Hin | (r0 & Hr0 & Heq)];
             [left; exact Hin |].
           right. exists r0.
           split; [apply list_elem_of_further; exact Hr0 | exact Heq].
         - simpl. lia. }
    specialize (Hst self' eq_refl). destruct (IH self') as [IHa IHl].
    destruct (deliver I self' results) as [[o' r] self''].
    cbn [snd] in *. split.
    + intros a Ha. destruct (IHa a Ha) as [Hin | (r0 & Hr0 & Heq)].
      * destruct Hst as [-> | [_ ->]]; [left; exact Hin |].
        cbn [scanned_dev scanned_dev_append] in Hin.
        apply elem_of_app in Hin as [Hin | Hin]; [left; exact Hin |].
        apply list_elem_of_singleton in Hin. right.
        exists result. split; [apply list_elem_of_here | congruence].
      * right. exists r0. split; [apply list_elem_of_further; exact Hr0 | exact Heq].
    + destruct Hst as [-> | [_ ->]]; [simpl; lia |].
      cbn [scanned_dev scanned_dev_append] in IHl.
      rewrite length_app in IHl. simpl in IHl |- *. lia.
Qed.

Lemma deliver_sources_witness :
  "AA:BB:CC:DD:EE:FF" ∈ scanned_dev scanner \/
  exists r, r ∈ [basic_result; rssi_result] /\
    result_bd_addr r = "AA:BB:CC:DD:EE:FF".
Proof.
  apply (proj1 (deliver_sources bt_imports [basic_result; rssi_result] scanner)).
  vm_compute. apply list_elem_of_here.
Defined.

(** ** The formatted address *)

Lemma byte_of_hex_fmt_X (b : byte) : byte_of_hex (fmt_X 2 (byte_val b)) = Some b.
Proof. destruct b; vm_compute; reflexivity. Qed.

Lemma fmt_X_byte_two_chars (b : byte) :
  exists c1 c2, fmt_X 2 (byte_val b) = String c1 (String c2 EmptyString).
Proof. destruct b; vm_compute; eauto. Qed.

Lemma fmt_X_byte_inj (a b : byte) :
  fmt_X 2 (byte_val a) = fmt_X 2 (byte_val b) -> a = b.
Proof.
  intros Heq. pose proof (byte_of_hex_fmt_X a) as Ha.
  rewrite Heq, byte_of_hex_fmt_X in Ha. congruence.
Qed.

Lemma concat_hex_inj (l1 l2 : list byte) :
  String.concat ":" (map (fun b => fmt_X 2 (byte_val b)) l1)
  = String.concat ":" (map (fun b => fmt_X 2 (byte_val b)) l2) ->
  l1 = l2.
Proof.
  revert l2. induction l1 as [| x l1 IH]; intros [| y l2] Heq.
  - reflexivity.
  - exfalso. cbn [map String.concat] in Heq.
    destruct (fmt_X_byte_two_chars y) as (d1 & d2 & Hy). rewrite Hy in Heq.
    destruct (map _ l2); discriminate.
  - exfalso. cbn [map String.concat] in Heq.
    destruct (fmt_X_byte_two_chars x) as (c1 & c2 & Hx). rewrite Hx in Heq.
    destruct (map _ l1); discriminate.
  - cbn [map String.concat] in Heq.
    pose proof (fmt_X_byte_inj x y) as Hinj.
    destruct (fmt_X_byte_two_chars x) as (c1 & c2 & Hx).
    destruct (fmt_X_byte_two_chars y) as (d1 & d2 & Hy).
    rewrite Hx, Hy in Heq, Hinj.
    destruct l1 as [| x' l1], l2 as [| y' l2]; cbn [map] in Heq.
    + f_equal. apply Hinj. exact Heq.
    + discriminate.
    + discriminate.
    + cbn [String.append] in Heq. injection Heq as -> -> Heq.
      f_equal; [apply Hinj; reflexivity | apply IH; exact Heq].
Qed.

(** X5.  The dictionary key and display string of an address determines the
    address: two byte strings that are formatted alike are equal, so
    different devices never share an entry of [scanned_dev]. *)
Theorem format_bd_addr_inj (a b : list byte) :
  format_bd_addr a = format_bd_addr b -> a = b.
Proof.
  unfold format_bd_addr. intros Heq. apply concat_hex_inj in Heq.
  apply (f_equal (@rev byte)) in Heq. rewrite !rev_involutive in Heq.
  exact Heq.
Qed.

Lemma format_bd_addr_inj_witness :
  [xff; xee; xdd; xcc; xbb; xaa]%byte = slice basic_result 3 9.
Proof.
  apply (format_bd_addr_inj [xff; xee; xdd; xcc; xbb; xaa]%byte
           (slice basic_result 3 9)).
  vm_compute. reflexivity.
Defined.

(** ** The unpacked fields *)

Lemma byte_val_range (x : byte) : 0 <= byte_val x < 256.
Proof.
  unfold byte_val. pose proof (Byte.to_N_bounded x) as Hx. lia.
Qed.

Lemma int_from_bytes_little_bound (b : list byte) :
  0 <= int_from_bytes_little b < 256 ^ Z.of_nat (List.length b).
Proof.
  induction b as [| x b IH]; [simpl; lia |].
  cbn [int_from_bytes_little List.length].
  rewrite Nat2Z.inj_succ, Z.pow_succ_r by lia.
  pose proof (byte_val_range x). lia.
Qed.

Lemma slice_length (b : list byte) (lo hi : nat) :
  (hi <= List.length b)%nat -> List.length (slice b lo hi) = (hi - lo)%nat.
Proof.
  intros Hhi. unfold slice. rewrite length_take, length_drop. lia.
Qed.

Lemma signed_char_range (b : list byte) :
  List.length b = 1%nat -> -128 <= signed_char b < 128.
Proof.
  intros Hlen. unfold signed_char.
  pose proof (int_from_bytes_little_bound b) as Hb. rewrite Hlen in Hb.
  change (256 ^ Z.of_nat 1) with 256 in Hb.
  destruct (int_from_bytes_little b <? 128) eqn:Hlt;
    [apply Z.ltb_lt in Hlt | apply Z.ltb_ge in Hlt]; lia.
Qed.

Ltac slice_bound s :=
  let H := fresh "Hbound" in
  pose proof (int_from_bytes_little_bound s) as H;
  rewrite slice_length in H by lia;
  match type of H with
  | context [256 ^ ?e] =>
    let v := eval vm_compute in (256 ^ e) in change (256 ^ e) with v in H
  end.

Ltac field_range :=
  lazymatch goal with
  | |- List.length (slice _ _ _) = _ => rewrite slice_length by lia; reflexivity
  | |- context [signed_char ?s] =>
    let H := fresh in
    assert (-128 <= signed_char s < 128) as H
      by (apply signed_char_range; rewrite slice_length by lia; reflexivity);
    lia
  | |- context [int_from_bytes_little ?s] => slice_bound s; lia
  end.

(** X7.  Whatever [struct.unpack] returns for the three layouts is in range: the
    address has six bytes and the CoD three, the one-byte fields are below
    256 and the two-byte fields below 65536, the RSSI is a signed byte and
    the EIR block has 240 bytes.  In particular the CoD that the three
    methods hand to [pp_cod] never exceeds 0xFFFFFF. *)
Theorem unpacked_fields_in_range (b : list byte) :
  returns (fun '(bd_addr, page_scan_repetition_mode, reserved, cod, clk_offset) =>
     List.length bd_addr = 6%nat /\ 0 <= page_scan_repetition_mode < 256 /\
     0 <= reserved < 65536 /\ List.length cod = 3%nat /\
     0 <= int_from_bytes_little cod <= 16777215 /\ 0 <= clk_offset < 65536)
    (unpack_6sBH3sH b) /\
  returns (fun '(bd_addr, page_scan_repetition_mode, reserved, cod, clk_offset,
                 rssi) =>
     List.length bd_addr = 6%nat /\ 0 <= page_scan_repetition_mode < 256 /\
     0 <= reserved < 256 /\ List.length cod = 3%nat /\
     0 <= int_from_bytes_little cod <= 16777215 /\ 0 <= clk_offset < 65536 /\
     -128 <= rssi < 128)
    (unpack_6sBB3sHb b) /\
  returns (fun '(bd_addr, page_scan_repetition_mode, reserved, cod, clk_offset,
                 rssi, ext_inq_rsp) =>
     List.length bd_addr = 6%nat /\ 0 <= page_scan_repetition_mode < 256 /\
     0 <= reserved < 256 /\ List.length cod = 3%nat /\
     0 <= int_from_bytes_little cod <= 16777215 /\ 0 <= clk_offset < 65536 /\
     -128 <= rssi < 128 /\ List.length ext_inq_rsp = 240%nat)
    (unpack_6sBB3sHb240s b).
Proof.
  unfold unpack_6sBH3sH, unpack_6sBB3sHb, unpack_6sBB3sHb240s.
  split; [| split].
  - destruct (Nat.eqb _ 14) eqn:Hlen; [| intros t Ht; discriminate].
    apply Nat.eqb_eq in Hlen. apply returns_ret.
    repeat split; field_range.
  - destruct (Nat.eqb _ 14) eqn:Hlen; [| intros t Ht; discriminate].
    apply Nat.eqb_eq in Hlen. apply returns_ret.
    repeat split; field_range.
  - destruct (Nat.eqb _ 254) eqn:Hlen; [| intros t Ht; discriminate].
    apply Nat.eqb_eq in Hlen. apply returns_ret.
    repeat split; field_range.
Qed.

(** ** More on the Class of Device *)

Lemma major_field_range (cod : Z) : 0 <= Z.land (Z.shiftr cod 8) 31 < 32.
Proof.
  change 31 with (Z.ones 5). rewrite Z.land_ones by lia.
  apply Z.mod_pos_bound. reflexivity.
Qed.

Lemma major_dev_clses_keys (m : Z) :
  0 <= m < 32 ->
  is_Some (major_dev_clses !! m) <-> ~ (10 <= m <= 30).
Proof.
  intros Hm.
  assert (exists n, m = Z.of_nat n /\ (n < 32)%nat) as (n & -> & Hn)
    by (exists (Z.to_nat m); lia).
  do 32 (destruct n as [| n];
         [vm_compute; split;
          [ first [ intros _ [H1 H2]; solve [apply H1; reflexivity
                                            | apply H2; reflexivity]
                  | intros [x Hx]; discriminate ]
          | first [ intros _; eexists; reflexivity
                  | intros H; exfalso; apply H; split; discriminate ] ] |]).
  lia.
Qed.

(** X8.  On a CoD of format #1 with at most 24 bits, [pp_cod] raises [KeyError]
    exactly when the major device class is one of the codes 10 to 30, which
    the table does not have; for every other code it returns normally. *)
Theorem pp_cod_fails_exactly (I : Imports) (cod : Z) :
  Z.land cod 3 = 0 -> cod <= 16777215 ->
  ((pp_cod I cod).2 = Raised KeyError <-> 10 <= Z.land (Z.shiftr cod 8) 31 <= 30)
  /\ ((pp_cod I cod).2 = Normal tt <-> ~ (10 <= Z.land (Z.shiftr cod 8) 31 <= 30)).
Proof.
  intros Hfmt Hmax. rewrite (pp_cod_outcome I cod Hfmt Hmax).
  pose proof (major_dev_clses_keys _ (major_field_range cod)) as Hkeys.
  destruct (major_dev_clses !! Z.land (Z.shiftr cod 8) 31) as [name |].
  - assert (~ (10 <= Z.land (Z.shiftr cod 8) 31 <= 30)) as Hin
      by (apply Hkeys; eauto).
    split; split; intros H; try discriminate; try contradiction; auto.
  - assert (10 <= Z.land (Z.shiftr cod 8) 31 <= 30) as Hout.
    { destruct (Z_le_dec 10 (Z.land (Z.shiftr cod 8) 31));
        destruct (Z_le_dec (Z.land (Z.shiftr cod 8) 31) 30); try lia;
        exfalso; assert (is_Some (@None string)) as [x Hx]
          by (apply Hkeys; lia); discriminate. }
    split; split; intros H; try discriminate; try contradiction; auto.
Qed.

Lemma pp_cod_fails_exactly_witness :
  (pp_cod bt_imports 7680).2 = Raised KeyError.
Proof.
  apply (proj1 (pp_cod_fails_exactly bt_imports 7680 eq_refl
                  ltac:(vm_compute; discriminate))).
  vm_compute. split; discriminate.
Defined.

Lemma bit_at_testbit (k cod : Z) :
  0 <= k -> bit_at k cod = Z.b2z (Z.testbit cod k).
Proof.
  intros Hk. unfold bit_at. change 1 with (Z.ones 1).
  rewrite Z.land_ones by lia. change (2 ^ 1) with 2.
  rewrite <- Z.bit0_mod, Z.shiftr_spec by lia. reflexivity.
Qed.

Lemma when_bit_at (k cod : Z) (args : list string) :
  0 <= k ->
  when (bit_at k cod) (print args)
  = ((if Z.testbit cod k then [Print (line args)] else []), Normal tt).
Proof.
  intros Hk. unfold when. rewrite bit_at_testbit by exact Hk.
  destruct (Z.testbit cod k); reflexivity.
Qed.

(** X9.  What [pp_cod] prints for a CoD of format #1 whose major class is in the
    table: the service class in binary, then one line for each set bit among
    bits 23 to 16 and bit 13, in that order and each depending on its own
    bit only, then the major class.  Bits 14 and 15 and the minor class
    print nothing. *)
Theorem pp_cod_service_classes (I : Imports) (cod : Z) (name : string) :
  Z.land cod 3 = 0 -> cod <= 16777215 ->
  major_dev_clses !! Z.land (Z.shiftr cod 8) 31 = Some name ->
  pp_cod I cod
  = ([ Log DEBUG "Entered br_scan.py, pp_cod()";
       Print (line [INDENT I +:+ "Service Class: " +:+ bin (Z.shiftr cod 13)]) ]
     ++ flat_map (fun '(k, s) =>
          if Z.testbit cod k
          then [Print (line [str_mul (INDENT I) 2 +:+ s])] else [])
          service_class_bits
     ++ [ Print (line [INDENT I +:+ "Major Device Class: "
                       +:+ bin (Z.land (Z.shiftr cod 8) 31) +:+ ",";
                       blue I name]) ],
     Normal tt).
Proof.
  intros Hfmt Hmax Hname. unfold pp_cod.
  rewrite Hfmt, Z.gtb_ltb, (proj2 (Z.ltb_ge _ _) Hmax).
  cbn [Z.eqb negb orb].
  unfold information, telephony, audio, object_transfer, capturing, rendering,
    networking, positioning, limited_discoverable_mode.
  rewrite !when_bit_at by lia. rewrite Hname.
  unfold log, print, emit, pp_minor_dev_cls, subscript, ret.
  rewrite !bind_normal. cbn [fst snd flat_map service_class_bits].
  rewrite !app_nil_r. rewrite <- !app_assoc. reflexivity.
Qed.

Lemma pp_cod_service_classes_witness :
  (pp_cod bt_imports 5898764).2 = Normal tt.
Proof.
  rewrite (pp_cod_service_classes bt_imports 5898764 "Phone");
    vm_compute; first [reflexivity | discriminate].
Defined.

(** X10.  The minor device class is not decoded: two CoDs of format #1 that agree
    from bit 8 upwards are printed alike. *)
Theorem pp_cod_ignores_minor (I : Imports) (c1 c2 : Z) :
  Z.land c1 3 = 0 -> Z.land c2 3 = 0 ->
  Z.shiftr c1 8 = Z.shiftr c2 8 ->
  pp_cod I c1 = pp_cod I c2.
Proof.
  intros H1 H2 Heq.
  assert (forall c k, 0 <= k -> Z.shiftr c (8 + k) = Z.shiftr (Z.shiftr c 8) k)
    as Hsh by (intros c k Hk; rewrite Z.shiftr_shiftr by lia; reflexivity).
  assert ((c1 >? 16777215) = (c2 >? 16777215)) as Hgt.
  { rewrite !Z.gtb_ltb. rewrite !Z.shiftr_div_pow2 in Heq by lia.
    change (2 ^ 8) with 256 in Heq.
    destruct (16777215 <? c1) eqn:E1, (16777215 <? c2) eqn:E2;
      try reflexivity;
      [apply Z.ltb_lt in E1; apply Z.ltb_ge in E2
      | apply Z.ltb_ge in E1; apply Z.ltb_lt in E2];
      exfalso;
      pose proof (Z.div_mod c1 256 ltac:(lia));
      pose proof (Z.div_mod c2 256 ltac:(lia));
      pose proof (Z.mod_pos_bound c1 256 ltac:(lia));
      pose proof (Z.mod_pos_bound c2 256 ltac:(lia)); lia. }
  unfold pp_cod.
  unfold information, telephony, audio, object_transfer, capturing, rendering,
    networking, positioning, limited_discoverable_mode, bit_at.
  rewrite H1, H2, Hgt.
  change 23 with (8 + 15). change 22 with (8 + 14). change 21 with (8 + 13).
  change 20 with (8 + 12). change 19 with (8 + 11). change 18 with (8 + 10).
  change 17 with (8 + 9). change 16 with (8 + 8). change 13 with (8 + 5).
  rewrite !Hsh by lia. rewrite Heq. reflexivity.
Qed.

Lemma pp_cod_ignores_minor_witness :
  pp_cod bt_imports 5898764 = pp_cod bt_imports 5898752.
Proof.
  apply (pp_cod_ignores_minor bt_imports 5898764 5898752); reflexivity.
Defined.

(** ** More on the Extended Inquiry Response *)

(** X11.  A block whose first length byte is zero holds no element: the walker
    prints the heading and [None] and returns. *)
Theorem pp_ext_inquiry_rsp_none (I : Imports) (x : byte) (tl : list byte) :
  byte_val x = 0 ->
  pp_ext_inquiry_rsp I (x :: tl)
  = ([ Print "Extended inquiry response: "; Print (line [red I "None"]) ],
     Normal tt).
Proof.
  intros Hx. rewrite pp_ext_inquiry_rsp_walks, Hx. reflexivity.
Qed.

Lemma pp_ext_inquiry_rsp_none_witness :
  pp_ext_inquiry_rsp bt_imports (eir_block [])
  = ([ Print "Extended inquiry response: ";
       Print (line [red bt_imports "None"]) ], Normal tt).
Proof.
  apply (pp_ext_inquiry_rsp_none bt_imports x00%byte (repeat x00%byte 239)).
  reflexivity.
Defined.

Lemma succeeds_bind (m : M unit) (k : unit -> M unit) :
  succeeds m -> succeeds (k tt) -> succeeds (bind m k).
Proof.
  unfold succeeds. intros Hm Hk. rewrite bind_snd, Hm. exact Hk.
Qed.

Lemma succeeds_emit (e : event) : succeeds (emit e).
Proof. reflexivity. Qed.

Lemma succeeds_for_each {A} (l : list A) (body : A -> M unit) :
  (forall x, succeeds (body x)) -> succeeds (for_each l body).
Proof.
  intros Hb. induction l as [| x l IH]; [reflexivity |].
  cbn [for_each]. apply succeeds_bind; [apply Hb | exact IH].
Qed.

Ltac succeeds_tac :=
  repeat first
    [ apply succeeds_emit
    | apply succeeds_bind
    | apply succeeds_for_each; intro
    | progress unfold print, print_end, log
    | match goal with
      | |- succeeds (if ?c then _ else _) => destruct c
      | |- succeeds (match ?o with _ => _ end) => destruct o
      end ].

Lemma pp_eir_element_failures (I : Imports) (length : Z) (data : list byte)
    (data_type : Z) (e : exn) :
  (pp_eir_element I length data data_type).2 = Raised e ->
  (e = KeyError /\ gap_type_names I data_type = None) \/
  (e = UnicodeDecodeError /\
   (data_type = SHORTENED_LOCAL_NAME I \/ data_type = COMPLETE_LOCAL_NAME I) /\
   decode I (drop 1 data) = None).
Proof.
  unfold pp_eir_element.
  assert (forall (m : string -> M unit),
    (forall n, succeeds (m n)) ->
    (bind (subscript (gap_type_names I data_type)) m).2 = Raised e ->
    e = KeyError /\ gap_type_names I data_type = None) as Hlook.
  { intros m Hm. destruct (gap_type_names I data_type) as [n |].
    - cbn [subscript]. rewrite bind_ret_l, (Hm n). discriminate.
    - intros H. injection H as <-. split; reflexivity. }
  destruct (data_type =? COMPLETE_LIST_OF_16_BIT_SERVICE_CLASS_UUIDS I).
  { intros H. left. revert H. apply Hlook. intros n. succeeds_tac. }
  destruct (data_type =? COMPLETE_LIST_OF_32_BIT_SERVICE_CLASS_UUIDS I).
  { intros H. left. revert H. apply Hlook. intros n. succeeds_tac. }
  destruct (data_type =? COMPLETE_LIST_OF_128_BIT_SERVICE_CLASS_UUIDS I).
  { intros H. left. revert H. apply Hlook. intros n. succeeds_tac. }
  destruct ((data_type =? SHORTENED_LOCAL_NAME I)
            || (data_type =? COMPLETE_LOCAL_NAME I))%bool eqn:Hname.
  { apply orb_true_iff in Hname. rewrite !Z.eqb_eq in Hname.
    destruct (gap_type_names I data_type) as [n |].
    - cbn [subscript]. rewrite bind_ret_l.
      destruct (decode I (drop 1 data)) as [text |] eqn:Hdec.
      + discriminate.
      + intros H. injection H as <-. right. auto.
    - intros H. injection H as <-. left. auto. }
  destruct (data_type =? TX_POWER_LEVEL I).
  { intros H. left. revert H. apply Hlook. intros n. succeeds_tac. }
  intros H. exfalso. revert H.
  assert (succeeds
    (match gap_type_names I data_type with
     | Some name => print [name]
     | None => print [red I ("Unknown, 0x" +:+ fmt_x 2 data_type)]
     end ;;; print [str_mul (INDENT I) 2 +:+ str_bytes I (drop 1 data)])) as Hs
    by succeeds_tac.
  rewrite Hs. discriminate.
Qed.

Lemma looked_up_succeeds (I : Imports) (data_type : Z) (m : string -> M unit) :
  (forall n, succeeds (m n)) ->
  (forall e, (bind (subscript (gap_type_names I data_type)) m).2 = Raised e ->
     e = KeyError /\ gap_type_names I data_type = None) /\
  (is_Some (gap_type_names I data_type) ->
   (bind (subscript (gap_type_names I data_type)) m).2 = Normal tt).
Proof.
  intros Hm. destruct (gap_type_names I data_type) as [n |].
  - cbn [subscript]. rewrite bind_ret_l, (Hm n).
    split; [discriminate | reflexivity].
  - split.
    + intros e H. injection H as <-. split; reflexivity.
    + intros [n Hn]. discriminate.
Qed.

(** X12.  Printing one element can fail in two ways only.  It raises
    [KeyError] only when the type is one of the six that are looked up in
    [gap_type_names] without a guard and the table does not have it, and
    [UnicodeDecodeError] only when the type is a local name whose payload
    does not decode.  So an element of any other type is printed without
    failure, in the table or not, and so is a UUID list whose type the table
    has, whatever its UUIDs and its size are. *)
Theorem pp_eir_element_raises (I : Imports) (length : Z) (data : list byte)
    (data_type : Z) :
  (forall e, (pp_eir_element I length data data_type).2 = Raised e ->
     (e = KeyError /\ gap_type_names I data_type = None /\
      unguarded_type I data_type) \/
     (e = UnicodeDecodeError /\
      (data_type = SHORTENED_LOCAL_NAME I \/ data_type = COMPLETE_LOCAL_NAME I)
      /\ decode I (drop 1 data) = None)) /\
  (~ unguarded_type I data_type ->
   (pp_eir_element I length data data_type).2 = Normal tt) /\
  (uuid_list_type I data_type -> is_Some (gap_type_names I data_type) ->
   (pp_eir_element I length data data_type).2 = Normal tt).
Proof.
  unfold pp_eir_element, unguarded_type, uuid_list_type.
  destruct (data_type =? COMPLETE_LIST_OF_16_BIT_SERVICE_CLASS_UUIDS I)
    eqn:H16.
  { apply Z.eqb_eq in H16.
    match goal with
    | |- context [bind (subscript _) ?m] =>
      destruct (looked_up_succeeds I data_type m) as [Hr Hn];
        [intros n; succeeds_tac |]
    end.
    split; [| split].
    - intros e He. left. destruct (Hr e He). auto.
    - intros Hnot. exfalso. apply Hnot. auto.
    - intros _ Hsome. apply Hn. exact Hsome. }
  destruct (data_type =? COMPLETE_LIST_OF_32_BIT_SERVICE_CLASS_UUIDS I)
    eqn:H32.
  { apply Z.eqb_eq in H32.
    match goal with
    | |- context [bind (subscript _) ?m] =>
      destruct (looked_up_succeeds I data_type m) as [Hr Hn];
        [intros n; succeeds_tac |]
    end.
    split; [| split].
    - intros e He. left. destruct (Hr e He). auto.
    - intros Hnot. exfalso. apply Hnot. auto.
    - intros _ Hsome. apply Hn. exact Hsome. }
  destruct (data_type =? COMPLETE_LIST_OF_128_BIT_SERVICE_CLASS_UUIDS I)
    eqn:H128.
  { apply Z.eqb_eq in H128.
    match goal with
    | |- context [bind (subscript _) ?m] =>
      destruct (looked_up_succeeds I data_type m) as [Hr Hn];
        [intros n; succeeds_tac |]
    end.
    split; [| split].
    - intros e He. left. destruct (Hr e He). auto 7.
    - intros Hnot. exfalso. apply Hnot. auto.
    - intros _ Hsome. apply Hn. exact Hsome. }
  apply Z.eqb_neq in H16, H32, H128.
  destruct ((data_type =? SHORTENED_LOCAL_NAME I)
            || (data_type =? COMPLETE_LOCAL_NAME I))%bool eqn:Hname.
  { apply orb_true_iff in Hname. rewrite !Z.eqb_eq in Hname.
    split; [| split].
    - destruct (gap_type_names I data_type) as [n |].
      + cbn [subscript]. rewrite bind_ret_l.
        destruct (decode I (drop 1 data)) as [text |] eqn:Hdec.
        * discriminate.
        * intros e H. injection H as <-. right. auto.
      + intros e H. injection H as <-. left.
        split; [reflexivity | split; [reflexivity |]].
        destruct Hname; auto 7.
    - intros Hnot. exfalso. apply Hnot. destruct Hname; auto 7.
    - intros [? | [? | ?]]; contradiction. }
  apply orb_false_iff in Hname as [Hs Hc]. apply Z.eqb_neq in Hs, Hc.
  destruct (data_type =? TX_POWER_LEVEL I) eqn:Htx.
  { apply Z.eqb_eq in Htx.
    match goal with
    | |- context [bind (subscript _) ?m] =>
      destruct (looked_up_succeeds I data_type m) as [Hr Hn];
        [intros n; succeeds_tac |]
    end.
    split; [| split].
    - intros e He. left. destruct (Hr e He). auto 8.
    - intros Hnot. exfalso. apply Hnot. auto 8.
    - intros [? | [? | ?]]; contradiction. }
  assert (succeeds
    (match gap_type_names I data_type with
     | Some name => print [name]
     | None => print [red I ("Unknown, 0x" +:+ fmt_x 2 data_type)]
     end ;;; print [str_mul (INDENT I) 2 +:+ str_bytes I (drop 1 data)])) as Hs'
    by succeeds_tac.
  unfold succeeds in Hs'. split; [| split].
  - intros e He. congruence.
  - intros _. exact Hs'.
  - intros _ _. exact Hs'.
Qed.

Lemma pp_eir_element_raises_witness :
  (pp_eir_element bt_imports 3 [x99; x01; x02]%byte 153).2 = Normal tt /\
  (pp_eir_element bt_imports 4 [x03; x0b; x11; x0c]%byte 3).2 = Normal tt /\
  ((UnicodeDecodeError = KeyError /\ gap_type_names bt_imports 9 = None /\
    unguarded_type bt_imports 9) \/
   (UnicodeDecodeError = UnicodeDecodeError /\
    (9 = SHORTENED_LOCAL_NAME bt_imports \/ 9 = COMPLETE_LOCAL_NAME bt_imports)
    /\ decode bt_imports (drop 1 [x09; xff]%byte) = None)).
Proof.
  split; [| split].
  - apply (proj1 (proj2 (pp_eir_element_raises bt_imports 3
                           [x99; x01; x02]%byte 153))).
    unfold unguarded_type. cbn.
    intros [H | [H | [H | [H | [H | H]]]]]; discriminate.
  - apply (proj2 (proj2 (pp_eir_element_raises bt_imports 4
                           [x03; x0b; x11; x0c]%byte 3))).
    + left. reflexivity.
    + eexists. vm_compute. reflexivity.
  - apply (proj1 (pp_eir_element_raises bt_imports 2 [x09; xff]%byte 9)
             UnicodeDecodeError).
    vm_compute. reflexivity.
Defined.

Lemma eir_chain_ends_nil (fuel : nat) : eir_chain_ends fuel [] = false.
Proof. destruct fuel; reflexivity. Qed.

Lemma eir_loop_raises (I : Imports) (fuel : nat) (b : list byte) (e : exn) :
  (eir_loop I fuel b).2 = Raised e ->
  (e = IndexError /\ eir_chain_ends fuel b = false) \/
  (e = KeyError /\ exists t, gap_type_names I t = None) \/
  (e = UnicodeDecodeError /\ exists p, decode I p = None).
Proof.
  revert b. induction fuel as [| fuel IH]; intros b; [discriminate |].
  destruct b as [| x tl].
  { intros H. injection H as <-. left. split; reflexivity. }
  rewrite eir_loop_turn. cbn [eir_chain_ends].
  destruct (byte_val x =? 0) eqn:Hx; [discriminate |].
  apply Z.eqb_neq in Hx. rewrite bind_snd.
  destruct (index (slice (x :: tl) 1 (1 + Z.to_nat (byte_val x))) 0)
    as [o [data_type | e' |]] eqn:Hidx; cbn [snd]; [| | discriminate].
  - rewrite bind_snd. cbn [print_end emit snd]. rewrite bind_snd.
    destruct (pp_eir_element I (byte_val x)
                (slice (x :: tl) 1 (1 + Z.to_nat (byte_val x))) data_type).2
      as [[] | e' |] eqn:Hpp; [| | discriminate].
    + apply IH.
    + intros H. injection H as <-.
      destruct (pp_eir_element_failures I _ _ _ _ Hpp) as [[-> Hk] | [-> [_ Hd]]];
        right; [left | right]; eauto.
  - intros H. injection H as <-.
    apply index_raised in Hidx as Heq. subst e'. left. split; [reflexivity |].
    assert (tl = []) as ->.
    { unfold index, slice in Hidx. pose proof (byte_val_range x) as Hr.
      destruct (Z.to_nat (byte_val x)) as [| n] eqn:Hn; [lia |].
      replace (1 + S n - 1)%nat with (S n) in Hidx by lia.
      destruct tl as [| y tl]; [reflexivity | discriminate]. }
    rewrite drop_ge by (simpl; lia). apply eir_chain_ends_nil.
Qed.

(** X13.  Why the walker can fail.  [IndexError] is raised only when the chain of
    length bytes runs off the block without meeting a zero; besides it
    there are only the two failures of printing an element, [KeyError] for a
    type missing from [gap_type_names] and [UnicodeDecodeError] for a name
    that does not decode.  No other exception leaves the walker. *)
Theorem pp_ext_inquiry_rsp_raises (I : Imports) (buf : list byte) (e : exn) :
  (pp_ext_inquiry_rsp I buf).2 = Raised e ->
  (e = IndexError /\ eir_chain_ends (S (List.length buf)) buf = false) \/
  (e = KeyError /\ exists t, gap_type_names I t = None) \/
  (e = UnicodeDecodeError /\ exists p, decode I p = None).
Proof.
  destruct buf as [| x tl].
  { intros H. injection H as <-. left. split; reflexivity. }
  rewrite pp_ext_inquiry_rsp_walks.
  destruct (byte_val x =? 0) eqn:Hx; [discriminate |].
  cbn [snd]. apply eir_loop_raises.
Qed.

Lemma pp_ext_inquiry_rsp_raises_witness :
  (IndexError = IndexError /\
   eir_chain_ends
     (S (List.length (eir_block [x02; x0a; x04; xff; x03]%byte)))
     (eir_block [x02; x0a; x04; xff; x03]%byte) = false) \/
  (IndexError = KeyError /\ exists t, gap_type_names bt_imports t = None) \/
  (IndexError = UnicodeDecodeError /\ exists p, decode bt_imports p = None).
Proof.
  apply (pp_ext_inquiry_rsp_raises bt_imports
           (eir_block [x02; x0a; x04; xff; x03]%byte) IndexError).
  vm_compute. reflexivity.
Defined.

Lemma walked_terminated_loop (I : Imports) (b rest : list byte)
    (out : list event) :
  walked I b out rest -> terminated rest ->
  forall fuel, (List.length b < fuel)%nat ->
  eir_loop I fuel b = (out, Normal tt).
Proof.
  induction 1 as [b | x tl data_type o out rest Hx Hidx Hpp Hw IH];
    intros Hend fuel Hlen.
  - destruct Hend as (x & tl & -> & Hx).
    destruct fuel as [| fuel]; [lia |].
    rewrite eir_loop_turn, Hx. reflexivity.
  - destruct fuel as [| fuel]; [lia |]. rewrite eir_loop_turn.
    apply Z.eqb_neq in Hx. rewrite Hx.
    rewrite Hidx, bind_ret_l, Hpp.
    rewrite (IH Hend fuel) by (rewrite length_drop; simpl in Hlen |- *; lia).
    unfold print_end, emit. rewrite !bind_normal. reflexivity.
Qed.

(** X14.  A block that is made of complete elements, each of which is printed
    without failure, followed by a zero length byte: the walker prints the
    heading and those elements, in order, and returns; what comes after the
    zero is not looked at. *)
Theorem pp_ext_inquiry_rsp_walked (I : Imports) (x : byte) (tl rest : list byte)
    (out : list event) :
  byte_val x <> 0 ->
  walked I (x :: tl) out rest -> terminated rest ->
  pp_ext_inquiry_rsp I (x :: tl)
  = ([Print "Extended inquiry response: "; Print nl] ++ out, Normal tt).
Proof.
  intros Hx Hw Hend. rewrite pp_ext_inquiry_rsp_walks.
  apply Z.eqb_neq in Hx. rewrite Hx.
  rewrite (walked_terminated_loop I _ _ _ Hw Hend) by lia. reflexivity.
Qed.

Lemma pp_ext_inquiry_rsp_walked_witness :
  pp_ext_inquiry_rsp bt_imports (eir_block [x03; x09; x41; x42]%byte)
  = ([Print "Extended inquiry response: "; Print nl]
     ++ [Print "    "; Print (line ["Complete Local Name:"; "AB"])],
     Normal tt).
Proof.
  refine (pp_ext_inquiry_rsp_walked bt_imports x03%byte
            (drop 1 (eir_block [x03; x09; x41; x42]%byte))
            (drop 4 (eir_block [x03; x09; x41; x42]%byte)) _ _ _ _).
  - vm_compute. discriminate.
  - refine (walked_turn bt_imports x03%byte _ 9
              [Print (line ["Complete Local Name:"; "AB"])] [] _ _ _ _ _).
    + vm_compute. discriminate.
    + vm_compute. reflexivity.
    + vm_compute. reflexivity.
    + apply walked_here.
  - exists x00%byte, (repeat x00%byte 235). split; reflexivity.
Defined.

(** ** More on the feature pages *)

Lemma requests_app (t1 t2 : list event) :
  requests (t1 ++ t2) = requests t1 ++ requests t2.
Proof.
  induction t1 as [| [s | l s | c] t1 IH]; simpl; rewrite ?IH; reflexivity.
Qed.

Lemma does_bind (m : M unit) (k : unit -> M unit) (r1 r2 : list hci_call)
    (r : outcome unit) :
  does r1 (Normal tt) m -> does r2 r (k tt) -> does (r1 ++ r2) r (bind m k).
Proof.
  destruct m as [o1 o]. intros [Hr1 Ho] [Hr2 Hr]. cbn [fst snd] in *.
  subst o. rewrite bind_normal. split; cbn [fst snd].
  - rewrite requests_app, Hr1, Hr2. reflexivity.
  - exact Hr.
Qed.

Lemma does_hci (c : hci_call) (k : unit -> M unit) (rs : list hci_call)
    (r : outcome unit) :
  does rs r (k tt) -> does (c :: rs) r (bind (emit (Hci c)) k).
Proof. intros Hk. apply (does_bind _ k [c] rs); [split; reflexivity | exact Hk]. Qed.

Lemma does_print (args : list string) (k : unit -> M unit)
    (rs : list hci_call) (r : outcome unit) :
  does rs r (k tt) -> does rs r (bind (print args) k).
Proof. intros Hk. apply (does_bind _ k [] rs); [split; reflexivity | exact Hk]. Qed.

Lemma does_log (lvl : level) (text : string) (k : unit -> M unit)
    (rs : list hci_call) (r : outcome unit) :
  does rs r (k tt) -> does rs r (bind (log lvl text) k).
Proof. intros Hk. apply (does_bind _ k [] rs); [split; reflexivity | exact Hk]. Qed.

Lemma does_quiet (m : M unit) (k : unit -> M unit) (rs : list hci_call)
    (r : outcome unit) :
  does [] (Normal tt) m -> does rs r (k tt) -> does rs r (bind m k).
Proof. intros Hm Hk. apply (does_bind _ k [] rs); assumption. Qed.

Lemma does_for_each {A} (l : list A) (body : A -> M unit)
    (f : A -> hci_call) :
  (forall x, does [f x] (Normal tt) (body x)) ->
  does (map f l) (Normal tt) (for_each l body).
Proof.
  intros Hb. induction l as [| x l IH]; [split; reflexivity |].
  cbn [for_each map]. apply (does_bind _ _ [f x] (map f l)); [apply Hb | exact IH].
Qed.

(** X15.  When the connection cannot be made, the one request sent is the
    connection request: the failure is logged as an error, with the address,
    the status and its name, nothing is printed, and the flow exits with
    status 1 before anything is read. *)
Theorem scan_lmp_feature_connection_failure (I : Imports) (hci : Controller)
    (paddr name : string) :
  cc_status (create_connection hci paddr 2) <> SUCCESS I ->
  ControllerErrorCodes I (cc_status (create_connection hci paddr 2))
  = Some name ->
  scan_lmp_feature I hci paddr
  = ([ Hci (CreateConnection paddr 2);
       Log ERROR
         ("Failed to connect " +:+ paddr +:+ " BD/EDR address" +:+ nl
          +:+ "    connection complete status: 0x"
          +:+ fmt_x 2 (cc_status (create_connection hci paddr 2))
          +:+ " - " +:+ name) ],
     Raised (SystemExit 1)).
Proof.
  intros Hcc Hname. unfold scan_lmp_feature.
  apply Z.eqb_neq in Hcc. rewrite Hcc, Hname. cbn [negb subscript].
  reflexivity.
Qed.

Lemma scan_lmp_feature_connection_failure_witness :
  scan_lmp_feature bt_imports
    {| create_connection := fun _ _ => {| cc_status := 4; conn_handle := 0 |};
       read_remote_version_information :=
         read_remote_version_information hci_no_ext;
       read_remote_supported_features :=
         read_remote_supported_features hci_no_ext;
       read_remote_extended_features :=
         read_remote_extended_features hci_no_ext |}
    "AA:BB:CC:DD:EE:FF"
  = ([ Hci (CreateConnection "AA:BB:CC:DD:EE:FF" 2);
       Log ERROR
         ("Failed to connect AA:BB:CC:DD:EE:FF BD/EDR address" +:+ nl
          +:+ "    connection complete status: 0x04 - PAGE_TIMEOUT") ],
     Raised (SystemExit 1)).
Proof.
  refine (scan_lmp_feature_connection_failure bt_imports _
            "AA:BB:CC:DD:EE:FF" "PAGE_TIMEOUT" _ _).
  - vm_compute. discriminate.
  - vm_compute. reflexivity.
Defined.

Section FeaturePages.

Context (I : Imports) (hci : Controller) (paddr : string).

Let conn_complete := create_connection hci paddr 2.
Let handle := conn_handle conn_complete.
Let version_complete := read_remote_version_information hci handle.
Let features_complete := read_remote_supported_features hci handle.
Let page0_complete := read_remote_extended_features hci handle 0.

Context (lmp ll company : string).

Hypothesis connected : cc_status conn_complete = SUCCESS I.
Hypothesis version_read : rv_status version_complete = SUCCESS I.
Hypothesis lmp_known : lmp_vers I (version version_complete) = Some lmp.
Hypothesis ll_known : ll_vers I (version version_complete) = Some ll.
Hypothesis company_known :
  company_identfiers I (company_id version_complete) = Some company.

(** The flow up to the read of the base features. *)
Ltac to_features :=
  unfold scan_lmp_feature; cbv zeta;
  fold conn_complete; fold handle; fold version_complete;
  fold features_complete; fold page0_complete;
  apply does_hci; rewrite connected, Z.eqb_refl; cbn [negb];
  apply does_hci; rewrite version_read, Z.eqb_refl; cbn [negb];
  do 2 apply does_print;
  rewrite lmp_known; cbn [subscript]; rewrite bind_ret_l; apply does_print;
  rewrite ll_known; cbn [subscript]; rewrite bind_ret_l; apply does_print;
  rewrite company_known; cbn [subscript]; rewrite bind_ret_l;
  do 2 apply does_print;
  apply does_hci.

(** X17.  When the read of the base features fails, the flow stops on
    [UnboundLocalError] after three requests, whatever the status is: the
    error message is built from a variable that is assigned only later, so
    neither the message nor the disconnect that follows it is reached. *)
Theorem scan_lmp_feature_features_failure :
  rf_status features_complete <> SUCCESS I ->
  does [ CreateConnection paddr 2; ReadRemoteVersionInformation handle;
         ReadRemoteSupportedFeatures handle ]
    (Raised UnboundLocalError) (scan_lmp_feature I hci paddr).
Proof.
  intros Hrf. to_features.
  apply Z.eqb_neq in Hrf. rewrite Hrf. cbn [negb]. split; reflexivity.
Qed.

Hypothesis features_read : rf_status features_complete = SUCCESS I.
Hypothesis features_printed :
  does [] (Normal tt) (pp_lmp_features I (lmp_features features_complete)).
Hypothesis features_size :
  (8 <= List.length (lmp_features features_complete))%nat.

(** The flow up to the read of page 0 of the extended features, which is
    requested whatever the base features are. *)
Ltac to_page0 :=
  to_features; rewrite features_read, Z.eqb_refl; cbn [negb];
  apply does_print; apply (does_quiet _ _ _ _ features_printed);
  apply does_print;
  let b := fresh "b7" in
  let Hb := fresh "Hb7" in
  destruct (lookup_lt_is_Some_2 (lmp_features features_complete) 7
              ltac:(lia)) as [b Hb];
  unfold index; rewrite Hb, bind_ret_l, ext_features_guard_false;
  apply does_print; apply does_hci.

(** X18.  When the read of page 0 fails, the failure is logged, the connection
    is closed and the flow exits with status 1: the disconnect is the last
    request. *)
Theorem scan_lmp_feature_page0_failure (name : string) :
  re_status page0_complete <> SUCCESS I ->
  ControllerErrorCodes I (re_status page0_complete) = Some name ->
  does [ CreateConnection paddr 2; ReadRemoteVersionInformation handle;
         ReadRemoteSupportedFeatures handle;
         ReadRemoteExtendedFeatures handle 0; Disconnect handle ]
    (Raised (SystemExit 1)) (scan_lmp_feature I hci paddr).
Proof.
  intros Hre Hname. to_page0.
  apply Z.eqb_neq in Hre. rewrite Hre, Hname. cbn [negb subscript].
  rewrite bind_ret_l. apply does_log. apply does_hci. split; reflexivity.
Qed.

(** X19.  When page 0 is read, the pages 1 to [max_page_num] are requested, each
    once and in order, whether the pages before them could be read or not;
    the disconnect is the last request and the flow returns normally. *)
Theorem scan_lmp_feature_walks_pages :
  re_status page0_complete = SUCCESS I ->
  (forall i,
     does [] (Normal tt)
       (pp_ext_lmp_features I
          (ext_lmp_features (read_remote_extended_features hci handle i)) i)) ->
  does ([ CreateConnection paddr 2; ReadRemoteVersionInformation handle;
          ReadRemoteSupportedFeatures handle;
          ReadRemoteExtendedFeatures handle 0 ]
        ++ map (ReadRemoteExtendedFeatures handle)
             (range1 (max_page_num page0_complete + 1))
        ++ [Disconnect handle])
    (Normal tt) (scan_lmp_feature I hci paddr).
Proof.
  intros Hre Hpages. cbn [app]. to_page0.
  rewrite Hre, Z.eqb_refl. cbn [negb].
  apply does_bind; [| split; reflexivity].
  apply does_for_each. intros i. apply does_hci.
  destruct (negb _); [split; reflexivity | apply Hpages].
Qed.

End FeaturePages.

Lemma scan_lmp_feature_features_failure_witness :
  does [ CreateConnection "AA:BB:CC:DD:EE:FF" 2;
         ReadRemoteVersionInformation 11; ReadRemoteSupportedFeatures 11 ]
    (Raised UnboundLocalError)
    (scan_lmp_feature bt_imports hci_features_fail "AA:BB:CC:DD:EE:FF").
Proof.
  apply (scan_lmp_feature_features_failure bt_imports hci_features_fail
           "AA:BB:CC:DD:EE:FF" "Bluetooth Core Specification 4.2"
           "Bluetooth Core Specification 4.2" "Broadcom Corporation");
    vm_compute; first [reflexivity | discriminate].
Defined.

Lemma scan_lmp_feature_page0_failure_witness :
  does [ CreateConnection "AA:BB:CC:DD:EE:FF" 2;
         ReadRemoteVersionInformation 11; ReadRemoteSupportedFeatures 11;
         ReadRemoteExtendedFeatures 11 0; Disconnect 11 ]
    (Raised (SystemExit 1))
    (scan_lmp_feature bt_imports hci_page0_fails "AA:BB:CC:DD:EE:FF").
Proof.
  apply (scan_lmp_feature_page0_failure bt_imports hci_page0_fails
           "AA:BB:CC:DD:EE:FF" "Bluetooth Core Specification 4.2"
           "Bluetooth Core Specification 4.2" "Broadcom Corporation")
    with (name := "CONNECTION_TIMEOUT"%string);
    first [ vm_compute; first [reflexivity | discriminate]
          | split; reflexivity
          | simpl; lia ].
Defined.

Lemma scan_lmp_feature_walks_pages_witness :
  does [ CreateConnection "AA:BB:CC:DD:EE:FF" 2;
         ReadRemoteVersionInformation 11; ReadRemoteSupportedFeatures 11;
         ReadRemoteExtendedFeatures 11 0; ReadRemoteExtendedFeatures 11 1;
         ReadRemoteExtendedFeatures 11 2; Disconnect 11 ]
    (Normal tt)
    (scan_lmp_feature bt_imports hci_page1_fails "AA:BB:CC:DD:EE:FF").
Proof.
  apply (scan_lmp_feature_walks_pages bt_imports hci_page1_fails
           "AA:BB:CC:DD:EE:FF" "Bluetooth Core Specification 4.2"
           "Bluetooth Core Specification 4.2" "Broadcom Corporation");
    first [ vm_compute; first [reflexivity | discriminate]
          | split; reflexivity
          | simpl; lia
          | intros i; split; reflexivity ].
Defined.

(** ** The name requests *)

Section NamesProperties.

Context (I : Imports) (remote_name_request : string -> name_reply).

Lemma name_requests_app (t1 t2 : list name_event) :
  name_requests (t1 ++ t2) = name_requests t1 ++ name_requests t2.
Proof.
  induction t1 as [| [e | a] t1 IH]; simpl; rewrite ?IH; reflexivity.
Qed.

Lemma request_names_loop_prefix (devs : list string) :
  name_requests (request_names_loop I remote_name_request devs).1
  `prefix_of` devs.
Proof.
  induction devs as [| a devs IH]; [reflexivity |].
  cbn [request_names_loop].
  destruct (request_names_loop I remote_name_request devs) as [t r].
  cbn [fst] in IH.
  destruct (remote_name_request a) as [status remote_name | | text].
  - destruct (negb (status =? SUCCESS I)).
    + destruct (ControllerErrorCodes I status);
        cbn [fst name_requests name_line];
        [apply prefix_cons; exact IH | apply prefix_cons, prefix_nil].
    + cbn [fst name_requests name_line]. apply prefix_cons. exact IH.
  - cbn [fst name_requests name_line]. apply prefix_cons. exact IH.
  - cbn [fst name_requests]. apply prefix_cons, prefix_nil.
Qed.

Lemma request_names_loop_answered (devs : list string) :
  (forall a, a ∈ devs -> answered I remote_name_request a) ->
  (request_names_loop I remote_name_request devs).2 = LoopDone /\
  name_requests (request_names_loop I remote_name_request devs).1 = devs /\
  name_lines (request_names_loop I remote_name_request devs).1
  = map (fun a => line [a +:+ " : "
                        +:+ blue I (printed_name I remote_name_request a)])
      devs.
Proof.
  induction devs as [| a devs IH]; intros Hall; [repeat split |].
  destruct IH as (IHr & IHq & IHl).
  { intros b Hb. apply Hall. apply list_elem_of_further. exact Hb. }
  pose proof (Hall a (list_elem_of_here _ _)) as Ha.
  unfold answered in Ha. cbn [request_names_loop map]. unfold printed_name at 1.
  destruct (request_names_loop I remote_name_request devs) as [t r].
  cbn [fst snd] in *.
  destruct (remote_name_request a) as [status remote_name | | text];
    [| | contradiction].
  - destruct (status =? SUCCESS I) eqn:Hst; cbn [negb].
    + cbn [fst snd name_requests name_lines name_line].
      rewrite IHq, IHl. repeat split; assumption.
    + destruct Ha as [Ha | [code_name Hc]];
        [apply Z.eqb_neq in Hst; contradiction |].
      rewrite Hc. cbn [fst snd name_requests name_lines name_line].
      rewrite IHq, IHl. repeat split; assumption.
  - cbn [fst snd name_requests name_lines name_line].
    rewrite IHq, IHl. repeat split; assumption.
Qed.

Lemma request_names_prefix (self : BRScanner) :
  name_requests (request_names I remote_name_request self).1
  `prefix_of` scanned_dev self.
Proof.
  unfold request_names.
  destruct (remote_name_req_flag self && _)%bool; [| apply prefix_nil].
  pose proof (request_names_loop_prefix (scanned_dev self)) as Hp.
  destruct (request_names_loop I remote_name_request (scanned_dev self))
    as [t [| text | e]]; cbn [fst name_requests] in *; try exact Hp.
  rewrite name_requests_app. cbn [name_requests]. rewrite app_nil_r. exact Hp.
Qed.

(** X20.  Names are asked for in the order of [scanned_dev], beginning at its
    head and without gaps or repeats: whatever the controller answers, the
    requests sent are a prefix of [scanned_dev]. *)
Theorem request_names_in_order (self : BRScanner) :
  name_requests (request_names I remote_name_request self).1
  `prefix_of` scanned_dev self.
Proof. apply request_names_prefix. Qed.

(** X21.  When every request is answered by a completion event or by a
    timeout, and every status other than [SUCCESS] among the answers has a
    name in [ControllerErrorCodes], one name is asked for and one line is
    printed for every address of [scanned_dev], in its order; the name
    printed is the remote name when the status is [SUCCESS] and empty
    otherwise.  A timeout or such a failure for one address does not stop
    the loop. *)
Theorem request_names_one_line_each (self : BRScanner) :
  remote_name_req_flag self = true ->
  (forall a, a ∈ scanned_dev self -> answered I remote_name_request a) ->
  (request_names I remote_name_request self).2 = Normal tt /\
  name_requests (request_names I remote_name_request self).1
  = scanned_dev self /\
  name_lines (request_names I remote_name_request self).1
  = map (fun a => line [a +:+ " : "
                        +:+ blue I (printed_name I remote_name_request a)])
      (scanned_dev self).
Proof.
  intros Hflag Hall. unfold request_names. rewrite Hflag. cbn [andb].
  destruct (scanned_dev self) as [| a devs] eqn:Hdevs; [repeat split |].
  cbn [List.length Nat.eqb negb].
  destruct (request_names_loop_answered (a :: devs) Hall) as (Hr & Hq & Hl).
  destruct (request_names_loop I remote_name_request (a :: devs)) as [t r].
  cbn [fst snd] in *. subst r. cbn [fst snd name_requests name_lines].
  repeat split; assumption.
Qed.

(** X22.  A scanner without addresses asks for nothing and prints nothing, not
    even the line that announces the requests. *)
Theorem request_names_nothing_scanned (self : BRScanner) :
  scanned_dev self = [] ->
  request_names I remote_name_request self = ([], Normal tt).
Proof.
  intros Hdevs. unfold request_names. rewrite Hdevs, andb_false_r.
  reflexivity.
Qed.

(** X23.  After a session every device is asked for its name at most once. *)
Theorem inquiry_asks_each_device_once (self : BRScanner)
    (results : list (list byte)) :
  NoDup (name_requests
           (request_names I remote_name_request
              (inquiry_events I self results).2).1).
Proof.
  pose proof (request_names_prefix (inquiry_events I self results).2)
    as [k Hk].
  pose proof (proj1 (deliver_scanned_dev I results (reset_scan self)
                       (NoDup_nil_2 (A := string)))) as Hnd.
  fold (inquiry_events I self results) in Hnd.
  rewrite Hk in Hnd. apply NoDup_app in Hnd. apply Hnd.
Qed.

End NamesProperties.

Lemma request_names_one_line_each_witness :
  name_lines
    (request_names bt_imports name_oracle
       (scanned_dev_append (scanned_dev_append scanner "11:22:33:44:55:66")
          "AA:BB:CC:DD:EE:FF")).1
  = map (fun a => line [a +:+ " : "
                        +:+ blue bt_imports (printed_name bt_imports name_oracle a)])
      ["11:22:33:44:55:66"; "AA:BB:CC:DD:EE:FF"].
Proof.
  refine (proj2 (proj2 (request_names_one_line_each bt_imports name_oracle
            (scanned_dev_append (scanned_dev_append scanner "11:22:33:44:55:66")
               "AA:BB:CC:DD:EE:FF") eq_refl _))).
  intros a Ha. cbn in Ha.
  apply elem_of_cons in Ha as [-> | Ha]; [exact I |].
  apply list_elem_of_singleton in Ha as ->. left. reflexivity.
Defined.

Lemma request_names_nothing_scanned_witness :
  request_names bt_imports name_oracle scanner = ([], Normal tt).
Proof.
  apply (request_names_nothing_scanned bt_imports name_oracle scanner).
  reflexivity.
Defined.

(** ** Truncated events *)

(** X3.  An inquiry result of one of the three variants that ends before its
    [Num_Responses] byte makes the method raise [IndexError]: nothing is
    printed, stored or logged beyond the handler's entry line. *)
Theorem handler_truncated (I : Imports) (self : BRScanner) (code : byte)
    (rest : list byte) (name : string) (size : nat) :
  HciEventCodes I (byte_val code) = Some name ->
  layout_size I (byte_val code) = Some size ->
  (List.length rest <= 1)%nat ->
  inquiry_result_handler I self (code :: rest)
  = ([entered name], Raised IndexError).
Proof.
  intros Hname Hsize Hlen. unfold inquiry_result_handler, layout_size in *.
  change (index (code :: rest) 0) with (@ret Z (byte_val code)).
  rewrite bind_ret_l, Hname. unfold subscript. rewrite bind_ret_l.
  assert (drop 2 (code :: rest) = []) as ->
    by (apply drop_ge; simpl; lia).
  destruct (byte_val code =? HCI_Inquiry_Result I);
    [| destruct (byte_val code =? HCI_Inquiry_Result_with_RSSI I);
       [| destruct (byte_val code =? HCI_Extended_Inquiry_Result I);
          [| discriminate]]]; reflexivity.
Qed.

Lemma handler_truncated_witness :
  inquiry_result_handler bt_imports scanner [x2f; xff]%byte
  = ([entered "HCI_Extended_Inquiry_Result"], Raised IndexError).
Proof.
  apply (handler_truncated bt_imports scanner x2f%byte [xff]%byte
           "HCI_Extended_Inquiry_Result" 254%nat);
    [reflexivity | reflexivity | simpl; lia].
Defined.

Lemma scan_lmp_feature_version_failure_witness :
  scan_lmp_feature bt_imports hci_version_fails "AA:BB:CC:DD:EE:FF"
  = ([ Hci (CreateConnection "AA:BB:CC:DD:EE:FF" 2);
       Hci (ReadRemoteVersionInformation 11);
       Log ERROR "Failed to read remote version" ],
     Raised (SystemExit 1)).
Proof.
  apply (scan_lmp_feature_version_failure bt_imports hci_version_fails
           "AA:BB:CC:DD:EE:FF"); vm_compute; [reflexivity | discriminate].
Defined.

Lemma unpacked_fields_in_range_witness :
  -128 <= signed_char (slice (drop 3 rssi_result) 13 14) < 128.
Proof.
  pose proof (proj1 (proj2 (unpacked_fields_in_range (drop 3 rssi_result)))
                _ eq_refl) as H.
  cbv beta iota in H.
  exact (proj2 (proj2 (proj2 (proj2 (proj2 (proj2 H)))))).
Defined.

Section UnnamedStatus.

Context (I : Imports) (remote_name_request : string -> name_reply).

Lemma request_names_loop_unnamed (pre post : list string) (a : string)
    (status : Z) (remote_name : string) :
  (forall b, b ∈ pre -> answered I remote_name_request b) ->
  remote_name_request a = RemoteNameRequestComplete status remote_name ->
  status <> SUCCESS I ->
  ControllerErrorCodes I status = None ->
  (request_names_loop I remote_name_request (pre ++ a :: post)).2
  = LoopRaised KeyError /\
  name_requests (request_names_loop I remote_name_request (pre ++ a :: post)).1
  = pre ++ [a] /\
  name_lines (request_names_loop I remote_name_request (pre ++ a :: post)).1
  = map (fun b => line [b +:+ " : "
                        +:+ blue I (printed_name I remote_name_request b)])
      pre.
Proof.
  intros Hall Ha Hst Hnone. apply Z.eqb_neq in Hst.
  induction pre as [| b pre IH].
  - cbn [app request_names_loop map]. rewrite Ha, Hst, Hnone.
    repeat split.
  - destruct IH as (IHr & IHq & IHl).
    { intros c Hc. apply Hall. apply list_elem_of_further. exact Hc. }
    pose proof (Hall b (list_elem_of_here _ _)) as Hb.
    unfold answered in Hb.
    change ((b :: pre) ++ a :: post) with (b :: (pre ++ a :: post)).
    cbn [request_names_loop map]. unfold printed_name at 1.
    destruct (request_names_loop I remote_name_request (pre ++ a :: post))
      as [t r].
    cbn [fst snd] in *.
    destruct (remote_name_request b) as [st name | | text];
      [| | contradiction].
    + destruct (st =? SUCCESS I) eqn:Hsb; cbn [negb].
      * cbn [fst snd name_requests name_lines name_line app].
        rewrite IHq, IHl. repeat split; assumption.
      * destruct Hb as [Hb | [code_name Hc]];
          [apply Z.eqb_neq in Hsb; contradiction |].
        rewrite Hc. cbn [fst snd name_requests name_lines name_line app].
        rewrite IHq, IHl. repeat split; assumption.
    + cbn [fst snd name_requests name_lines name_line app].
      rewrite IHq, IHl. repeat split; assumption.
Qed.

(** X24.  A completion event whose status is neither [SUCCESS] nor a key of
    [ControllerErrorCodes] ends the name requests with [KeyError], which
    nothing in [inquiry] catches: the addresses before it are asked and
    printed as usual, the request for this address is the last one sent, no
    line is printed for it and no later address is asked. *)
Theorem request_names_unnamed_status (self : BRScanner)
    (pre post : list string) (a : string) (status : Z)
    (remote_name : string) :
  remote_name_req_flag self = true ->
  scanned_dev self = pre ++ a :: post ->
  (forall b, b ∈ pre -> answered I remote_name_request b) ->
  remote_name_request a = RemoteNameRequestComplete status remote_name ->
  status <> SUCCESS I ->
  ControllerErrorCodes I status = None ->
  (request_names I remote_name_request self).2 = Raised KeyError /\
  name_requests (request_names I remote_name_request self).1 = pre ++ [a] /\
  name_lines (request_names I remote_name_request self).1
  = map (fun b => line [b +:+ " : "
                        +:+ blue I (printed_name I remote_name_request b)])
      pre.
Proof.
  intros Hflag Hdevs Hall Ha Hst Hnone. unfold request_names.
  rewrite Hflag, Hdevs. cbn [andb].
  assert (Nat.eqb (List.length (pre ++ a :: post)) 0 = false) as ->
    by (apply Nat.eqb_neq; rewrite length_app; simpl; lia).
  cbn [negb].
  destruct (request_names_loop_unnamed pre post a status remote_name
              Hall Ha Hst Hnone) as (Hr & Hq & Hl).
  destruct (request_names_loop I remote_name_request (pre ++ a :: post))
    as [t r].
  cbn [fst snd] in *. subst r. cbn [fst snd name_requests name_lines].
  repeat split; assumption.
Qed.

End UnnamedStatus.

Lemma request_names_unnamed_status_witness :
  (request_names bt_imports
     (fun a => if String.eqb a "AA:BB:CC:DD:EE:FF"
               then RemoteNameRequestComplete 5 "" else NameTimeoutError)
     (scanned_dev_append
        (scanned_dev_append
           (scanned_dev_append scanner "11:22:33:44:55:66")
           "AA:BB:CC:DD:EE:FF") "00:00:00:00:00:01")).2
  = Raised KeyError /\
  name_requests
    (request_names bt_imports
       (fun a => if String.eqb a "AA:BB:CC:DD:EE:FF"
                 then RemoteNameRequestComplete 5 "" else NameTimeoutError)
       (scanned_dev_append
          (scanned_dev_append
             (scanned_dev_append scanner "11:22:33:44:55:66")
             "AA:BB:CC:DD:EE:FF") "00:00:00:00:00:01")).1
  = ["11:22:33:44:55:66"] ++ ["AA:BB:CC:DD:EE:FF"].
Proof.
  pose proof (request_names_unnamed_status bt_imports
    (fun a => if String.eqb a "AA:BB:CC:DD:EE:FF"
              then RemoteNameRequestComplete 5 "" else NameTimeoutError)
    (scanned_dev_append
       (scanned_dev_append
          (scanned_dev_append scanner "11:22:33:44:55:66")
          "AA:BB:CC:DD:EE:FF") "00:00:00:00:00:01")
    ["11:22:33:44:55:66"] ["00:00:00:00:00:01"] "AA:BB:CC:DD:EE:FF" 5 ""
    eq_refl eq_refl) as H.
  destruct H as (Hr & Hq & _).
  - intros b Hb. apply list_elem_of_singleton in Hb as ->. exact Logic.I.
  - reflexivity.
  - vm_compute. discriminate.
  - vm_compute. reflexivity.
  - split; assumption.
Defined.
